(** * Linear-program model builders of [assign.py] and [transport.py]

    A shallow embedding of the two scripts.  The CPLEX object the scripts
    drive is an explicit record that the API calls update; Python exceptions
    are a [Raise] outcome; [print] appends to a list of lines.  The numbers
    of the input, the texts of the API's own errors, the external solver and
    the random source are interfaces ([PyNum], [Texts], [Library], [Random])
    with concrete instances for the runs. *)

From Stdlib Require Import List String Ascii ZArith Lia Bool PeanoNat.
From Stdlib Require Import Decimal DecimalString DecimalNat.
From Stdlib Require Import Reals Lra.
Import ListNotations.

Local Open Scope list_scope.
Local Open Scope nat_scope.

(** ** Python values used by the scripts *)

Module Py.

(** The exceptions the scripts can meet. *)
Inductive exn : Type :=
| IndexError
| ValueError
| ZeroDivisionError
| CplexError (msg : string).

Inductive result (A : Type) : Type :=
| Ok (a : A)
| Raise (e : exn).
Arguments Ok {A} a.
Arguments Raise {A} e.

(** [str(i)] of a non-negative [int]: decimal digits, no leading zero. *)
Definition str (i : nat) : string :=
  NilEmpty.string_of_uint (Nat.to_uint i).

(** [range(n)]. *)
Definition range (n : nat) : list nat := seq 0 n.

(** [enumerate(l)]. *)
Definition enumerate {A : Type} (l : list A) : list (nat * A) :=
  combine (seq 0 (List.length l)) l.

(** [l[i]] for a non-negative index: [IndexError] out of range. *)
Definition getitem {A : Type} (l : list A) (i : nat) : result A :=
  match nth_error l i with
  | Some a => Ok a
  | None => Raise IndexError
  end.

(** [[v] * k]. *)
Definition times {A : Type} (v : A) (k : nat) : list A := repeat v k.

End Py.
Import Py.

Infix "^^" := String.append (at level 60, right associativity).

(** Python numbers as the builder uses them: it only adds and subtracts the
    circle data, passes the flows through, and writes [int] literals. *)
Class PyNum (num : Type) : Type := {
  padd : num -> num -> num;
  psub : num -> num -> num;
  pint : Z -> num
}.

#[export] Instance PyNum_Z : PyNum Z := {
  padd := Z.add;
  psub := Z.sub;
  pint := fun z => z
}.

(** The texts of the errors the CPLEX API raises on its own, which the
    scripts only print: for arguments of different lengths (a plain
    [CplexError]) and for error 1222, duplicate entries. *)
Class Texts : Type := {
  inconsistent_arguments : string;
  duplicate_entries : string
}.

(** ** The CPLEX problem object *)

Inductive objsense : Type := minimize | maximize.

(** The one-letter constraint senses of the CPLEX API: "L", "E", "G". *)
Inductive sense : Type := sense_L | sense_E | sense_G.

(** An upper bound: [float("inf")] (also the API's default) or a number. *)
Inductive ubound (num : Type) : Type :=
| ub_inf
| ub_num (v : num).
Arguments ub_inf {num}.
Arguments ub_num {num} v.

(** A column.  Its name is optional: [variables.add] names the columns
    for which it is given a name. *)
Record var (num : Type) : Type := mk_var {
  var_label : option string;
  var_obj : num;
  var_lb : Z;
  var_ub : ubound num
}.
Arguments mk_var {num}.
Arguments var_label {num}.
Arguments var_obj {num}.
Arguments var_lb {num}.
Arguments var_ub {num}.

(** The name of a column, empty for a column that has none. *)
Definition var_name {num : Type} (v : var num) : string :=
  match var_label v with
  | Some nm => nm
  | None => EmptyString
  end.

Record SparsePair : Type := mk_SparsePair {
  ind : list string;
  val : list Z
}.

Record lincon (num : Type) : Type := mk_lincon {
  lin_expr : SparsePair;
  senses : sense;
  rhs : num;
  names : option string
}.
Arguments mk_lincon {num}.
Arguments lin_expr {num}.
Arguments senses {num}.
Arguments rhs {num}.
Arguments names {num}.

Record Cplex (num : Type) : Type := mk_Cplex {
  objective_sense : objsense;
  variables : list (var num);
  linear_constraints : list (lincon num);
  objective_linear : list (string * num)
}.
Arguments mk_Cplex {num}.
Arguments objective_sense {num}.
Arguments variables {num}.
Arguments linear_constraints {num}.
Arguments objective_linear {num}.

(** What a script can change: its problem object and the console. *)
Record World (num : Type) : Type := mk_World {
  problem : Cplex num;
  stdout : list string
}.
Arguments mk_World {num}.
Arguments problem {num}.
Arguments stdout {num}.

(** ** Statements: state passing with exceptions *)

Definition M (num A : Type) : Type := World num -> result A * World num.

Section Monad.
Context {num : Type}.

Definition ret {A : Type} (a : A) : M num A := fun w => (Ok a, w).

Definition bind {A B : Type} (m : M num A) (k : A -> M num B) : M num B :=
  fun w =>
    match m w with
    | (Ok a, w') => k a w'
    | (Raise e, w') => (Raise e, w')
    end.

Definition raise {A : Type} (e : exn) : M num A := fun w => (Raise e, w).

(** Evaluate an expression that may raise. *)
Definition eval {A : Type} (r : result A) : M num A := fun w => (r, w).

(** [try: body  except CplexError as e: handler(e)]. *)
Definition try_except_CplexError (body : M num unit)
    (handler : string -> M num unit) : M num unit :=
  fun w =>
    match body w with
    | (Raise (CplexError msg), w') => handler msg w'
    | other => other
    end.

Definition update_problem (f : Cplex num -> Cplex num) : M num unit :=
  fun w => (Ok tt, mk_World (f (problem w)) (stdout w)).

(** [print(line)]. *)
Definition print (line : string) : M num unit :=
  fun w => (Ok tt, mk_World (problem w) (stdout w ++ [line])).

End Monad.

Notation "x <- m ;; k" := (bind m (fun x => k))
  (at level 61, m at next level, right associativity).
Notation "m ;; k" := (bind m (fun _ => k))
  (at level 61, right associativity).

Section Loops.
Context {num : Type}.

(** [for a in l: body(a)]. *)
Fixpoint for_each {A : Type} (l : list A) (body : A -> M num unit)
  : M num unit :=
  match l with
  | [] => ret tt
  | a :: l' => body a ;; for_each l' body
  end.

(** [[f(a) for a in l]], where [f] may raise. *)
Fixpoint comprehension {A B : Type} (f : A -> result B) (l : list A)
  : result (list B) :=
  match l with
  | [] => Ok []
  | a :: l' =>
      match f a with
      | Raise e => Raise e
      | Ok b =>
          match comprehension f l' with
          | Raise e => Raise e
          | Ok bs => Ok (b :: bs)
          end
      end
  end.

End Loops.

(** ** The CPLEX API calls the scripts make *)

Section Api.
Context {num : Type} `{PyNum num} {TXT : Texts}.

(** [cplex.Cplex()]: an empty problem (the default sense is minimize). *)
Definition empty_problem : Cplex num := mk_Cplex minimize [] [] [].

(** [problem.objective.set_sense(s)]. *)
Definition objective_set_sense (s : objsense) : M num unit :=
  update_problem (fun p =>
    mk_Cplex s (variables p) (linear_constraints p) (objective_linear p)).

(** A keyword argument that is left out counts as an empty list. *)
Definition given {A : Type} (arg : option (list A)) : list A :=
  match arg with
  | None => []
  | Some l => l
  end.

(** An argument fits a call for [k] columns when it is empty or has [k]
    entries. *)
Definition arg_fits (k len : nat) : bool := (len =? 0) || (len =? k).

(** [problem.variables.add(obj=, lb=, ub=, names=)].  The call adds as many
    columns as its longest argument has entries.  Empty arguments are
    ignored; the others must all have that length, or the call raises.  A
    column takes the API's default where an argument is empty: objective 0,
    lower bound 0, upper bound infinity, no name.  Names need not be
    distinct. *)
Definition variables_add (obj : option (list num)) (lb : option (list Z))
    (ub : option (list (ubound num))) (nms : list string) : M num unit :=
  let k :=
    Nat.max (List.length (given obj))
      (Nat.max (List.length (given lb))
         (Nat.max (List.length (given ub)) (List.length nms))) in
  if arg_fits k (List.length (given obj))
     && arg_fits k (List.length (given lb))
     && arg_fits k (List.length (given ub))
     && arg_fits k (List.length nms)
  then
    update_problem (fun p =>
      mk_Cplex (objective_sense p)
        (variables p ++
           map (fun i =>
                  mk_var (nth_error nms i) (nth i (given obj) (pint 0))
                    (nth i (given lb) 0%Z) (nth i (given ub) ub_inf))
               (range k))
        (linear_constraints p) (objective_linear p))
  else raise (CplexError inconsistent_arguments).

(** [problem.linear_constraints.add(lin_expr=[e], senses=[s], rhs=[r],
    names=[nm])]: the scripts always add one row per call, over names they
    have added as variables before and without repeating a name in a row. *)
Definition linear_constraints_add (e : SparsePair) (s : sense) (r : num)
    (nm : option string) : M num unit :=
  update_problem (fun p =>
    mk_Cplex (objective_sense p) (variables p)
      (linear_constraints p ++ [mk_lincon e s r nm]) (objective_linear p)).

(** Does a list of names hold a name twice? *)
Fixpoint has_dup (l : list string) : bool :=
  match l with
  | [] => false
  | a :: l' => existsb (String.eqb a) l' || has_dup l'
  end.

(** [problem.objective.set_linear(terms)], terms being (name, value)
    pairs over names the script has added as variables before.  Each name
    stands for one column, so two terms with one name are two entries for
    one column: the call then raises error 1222 and changes nothing.
    Otherwise the record keeps the terms as they are given. *)
Definition objective_set_linear (terms : list (string * num)) : M num unit :=
  if has_dup (map fst terms) then raise (CplexError duplicate_entries)
  else
    update_problem (fun p =>
      mk_Cplex (objective_sense p) (variables p) (linear_constraints p)
        (objective_linear p ++ terms)).

End Api.

(** ** [assign.py]: the model [assign_problem] builds (lines 7 to 72) *)

(** A circle [(a, b, r)]. *)
Definition circle (num : Type) : Type := (num * num * num)%type.

Section Assign.
Context {num : Type} `{PyNum num} {TXT : Texts}.

(** [[(i, j) for i in range(n) for j in range(n) if i != j]]. *)
Definition pairs (n : nat) : list (nat * nat) :=
  flat_map (fun i =>
    flat_map (fun j => if negb (i =? j) then [(i, j)] else []) (range n))
    (range n).

Definition x_names (n : nat) : list string :=
  map (fun i => "x" ^^ str i)%string (range n).

Definition y_names (n : nat) : list string :=
  map (fun i => "y" ^^ str i)%string (range n).

(** [[f"d{i}{j}" for i in range(n) for j in range(n) if i != j]]. *)
Definition d_names (n : nat) : list string :=
  flat_map (fun i =>
    flat_map (fun j =>
      if negb (i =? j) then [("d" ^^ str i ^^ str j)%string] else [])
      (range n))
    (range n).

(** [cplex.SparsePair(ind=[x[i], y[i]], val=vals)]. *)
Definition pair_xy (x y : list string) (i : nat) (vals : list Z)
  : result SparsePair :=
  match getitem x i with
  | Raise e => Raise e
  | Ok xi =>
      match getitem y i with
      | Raise e => Raise e
      | Ok yi => Ok (mk_SparsePair [xi; yi] vals)
      end
  end.

(** [cplex.SparsePair(ind=[x[i], x[j], y[i], y[j], d[idx]], val=vals)]. *)
Definition pair_aux (x y d : list string) (i j idx : nat) (vals : list Z)
  : result SparsePair :=
  match getitem x i with
  | Raise e => Raise e
  | Ok xi =>
  match getitem x j with
  | Raise e => Raise e
  | Ok xj =>
  match getitem y i with
  | Raise e => Raise e
  | Ok yi =>
  match getitem y j with
  | Raise e => Raise e
  | Ok yj =>
  match getitem d idx with
  | Raise e => Raise e
  | Ok dij => Ok (mk_SparsePair [xi; xj; yi; yj; dij] vals)
  end end end end end.

(** [flows[i][j]]. *)
Definition flows_getitem (flows : list (list num)) (i j : nat) : result num :=
  match getitem flows i with
  | Raise e => Raise e
  | Ok row => getitem row j
  end.

(** [(d[idx], flows[i][j])]. *)
Definition objective_term (d : list string) (flows : list (list num))
    (t : nat * (nat * nat)) : result (string * num) :=
  let '(idx, (i, j)) := t in
  match getitem d idx with
  | Raise e => Raise e
  | Ok dij =>
      match flows_getitem flows i j with
      | Raise e => Raise e
      | Ok f => Ok (dij, f)
      end
  end.

(** The body of the loop over [enumerate(circles)]. *)
Definition circle_body (x y : list string) (t : nat * circle num) : M num unit :=
  let '(i, (a, b, r)) := t in
  e1 <- eval (pair_xy x y i [1; 1]%Z) ;;
  linear_constraints_add e1 sense_L (padd a r)
    (Some ("circle_x_ub_" ^^ str i)%string) ;;
  e2 <- eval (pair_xy x y i [-1; -1]%Z) ;;
  linear_constraints_add e2 sense_L (psub r a)
    (Some ("circle_x_lb_" ^^ str i)%string) ;;
  e3 <- eval (pair_xy x y i [1; -1]%Z) ;;
  linear_constraints_add e3 sense_L (padd b r)
    (Some ("circle_y_ub_" ^^ str i)%string) ;;
  e4 <- eval (pair_xy x y i [-1; 1]%Z) ;;
  linear_constraints_add e4 sense_L (psub r b)
    (Some ("circle_y_lb_" ^^ str i)%string).

(** The body of the loop over the enumerated ordered pairs. *)
Definition aux_body (x y d : list string) (t : nat * (nat * nat)) : M num unit :=
  let '(idx, (i, j)) := t in
  e1 <- eval (pair_aux x y d i j idx [2; -2; 2; -2; -1]%Z) ;;
  linear_constraints_add e1 sense_L (pint 0)
    (Some ("aux_distance_" ^^ str i ^^ str j ^^ "_lb")%string) ;;
  e2 <- eval (pair_aux x y d i j idx [-2; 2; -2; 2; -1]%Z) ;;
  linear_constraints_add e2 sense_L (pint 0)
    (Some ("aux_distance_" ^^ str i ^^ str j ^^ "_ub")%string).

(** Lines 7 to 72 of [assign_problem]: everything between the creation of
    the problem object and the call of the solver. *)
Definition assign_model (circles : list (circle num)) (flows : list (list num))
    (n : nat) : M num unit :=
  objective_set_sense minimize ;;
  let x := x_names n in
  let y := y_names n in
  let d := d_names n in
  variables_add None (Some (times 0%Z (2 * n)))
    (Some (times ub_inf (2 * n))) (x ++ y) ;;
  variables_add None (Some (times 0%Z (List.length d)))
    (Some (times ub_inf (List.length d))) d ;;
  for_each (enumerate circles) (circle_body x y) ;;
  objective_terms <-
    eval (comprehension (objective_term d flows) (enumerate (pairs n))) ;;
  objective_set_linear objective_terms ;;
  for_each (enumerate (pairs n)) (aux_body x y d).

(** The world right after [problem = cplex.Cplex()]. *)
Definition fresh_world (out : list string) : World num :=
  mk_World empty_problem out.

End Assign.

(** ** The construction in the words of the specification *)

Section AssignSpec.
Context {num : Type} `{PyNum num} {TXT : Texts}.

Definition x_var (i : nat) : string := ("x" ^^ str i)%string.
Definition y_var (i : nat) : string := ("y" ^^ str i)%string.
Definition d_var (p : nat * nat) : string :=
  ("d" ^^ str (fst p) ^^ str (snd p))%string.

(** Every ordered pair of distinct facilities below [n]. *)
Definition ordered_pairs (n : nat) : list (nat * nat) :=
  filter (fun p => negb (fst p =? snd p)) (list_prod (range n) (range n)).

(** A variable with bounds [0, inf) and no objective coefficient. *)
Definition free_var (nm : string) : var num :=
  mk_var (Some nm) (pint 0) 0%Z ub_inf.

(** The four circle rows of facility [i] with circle [(a, b, r)]. *)
Definition spec_circle_rows (t : nat * circle num) : list (lincon num) :=
  let '(i, (a, b, r)) := t in
  [ mk_lincon (mk_SparsePair [x_var i; y_var i] [1; 1]%Z) sense_L
      (padd a r) (Some ("circle_x_ub_" ^^ str i)%string);
    mk_lincon (mk_SparsePair [x_var i; y_var i] [-1; -1]%Z) sense_L
      (psub r a) (Some ("circle_x_lb_" ^^ str i)%string);
    mk_lincon (mk_SparsePair [x_var i; y_var i] [1; -1]%Z) sense_L
      (padd b r) (Some ("circle_y_ub_" ^^ str i)%string);
    mk_lincon (mk_SparsePair [x_var i; y_var i] [-1; 1]%Z) sense_L
      (psub r b) (Some ("circle_y_lb_" ^^ str i)%string) ].

(** The two auxiliary rows of the ordered pair [(i, j)]. *)
Definition spec_aux_rows (p : nat * nat) : list (lincon num) :=
  let '(i, j) := p in
  [ mk_lincon
      (mk_SparsePair [x_var i; x_var j; y_var i; y_var j; d_var (i, j)]
         [2; -2; 2; -2; -1]%Z)
      sense_L (pint 0)
      (Some ("aux_distance_" ^^ str i ^^ str j ^^ "_lb")%string);
    mk_lincon
      (mk_SparsePair [x_var i; x_var j; y_var i; y_var j; d_var (i, j)]
         [-2; 2; -2; 2; -1]%Z)
      sense_L (pint 0)
      (Some ("aux_distance_" ^^ str i ^^ str j ^^ "_ub")%string) ].

Definition spec_constraints (circles : list (circle num)) (n : nat)
  : list (lincon num) :=
  flat_map spec_circle_rows (enumerate circles)
  ++ flat_map spec_aux_rows (ordered_pairs n).

Definition spec_variables (n : nat) : list (var num) :=
  map free_var (map x_var (range n) ++ map y_var (range n))
  ++ map free_var (map d_var (ordered_pairs n)).

(** [flows[i][j]] where the entry exists. *)
Definition flow_at (flows : list (list num)) (p : nat * nat) : num :=
  nth (snd p) (nth (fst p) flows []) (pint 0).

Definition spec_objective (flows : list (list num)) (n : nat)
  : list (string * num) :=
  map (fun p => (d_var p, flow_at flows p)) (ordered_pairs n).

Definition spec_model (circles : list (circle num)) (flows : list (list num))
    (n : nat) : Cplex num :=
  mk_Cplex minimize (spec_variables n) (spec_constraints circles n)
    (spec_objective flows n).

(** The problem as it stands after the loop over the circles: every variable
    and the circle rows, no objective term and no auxiliary row. *)
Definition circle_model (circles : list (circle num)) (n : nat) : Cplex num :=
  mk_Cplex minimize (spec_variables n)
    (flat_map spec_circle_rows (enumerate circles)) [].

(** The input contract of the specification. *)
Definition matching (circles : list (circle num)) (flows : list (list num))
    (n : nat) : Prop :=
  List.length circles = n /\ List.length flows = n /\
  Forall (fun row => List.length row = n) flows.

(** Is the entry [flows[i][j]] there? *)
Definition has_flow (flows : list (list num)) (p : nat * nat) : bool :=
  match nth_error flows (fst p) with
  | Some row => snd p <? List.length row
  | None => false
  end.

(** Every off-diagonal entry [flows[i][j]], [i, j < n], exists. *)
Definition flows_cover (flows : list (list num)) (n : nat) : bool :=
  forallb (has_flow flows) (ordered_pairs n).

(** The builder met an out-of-range access. *)
Definition index_error (circles : list (circle num)) (flows : list (list num))
    (n : nat) : Prop :=
  fst (assign_model circles flows n (fresh_world [])) = Raise IndexError.

End AssignSpec.

(** ** [transport.py]: the model [transportation_problem] builds
       (lines 49 to 75) *)

Section Transport.
Context {num : Type} `{PyNum num} {TXT : Texts}.

(** [f"x{i}_{j}"]. *)
Definition shipment (i j : nat) : string :=
  ("x" ^^ str i ^^ "_" ^^ str j)%string.

(** [[f"x{i}_{j}" for i in range(len(supply)) for j in range(len(demand))]]. *)
Definition shipment_names (supply demand : list num) : list string :=
  flat_map (fun i => map (fun j => shipment i j) (range (List.length demand)))
    (range (List.length supply)).

Definition supply_body (supply demand : list num) (i : nat) : M num unit :=
  let constraint :=
    mk_SparsePair (map (fun j => shipment i j) (range (List.length demand)))
      (times 1%Z (List.length demand)) in
  s <- eval (getitem supply i) ;;
  linear_constraints_add constraint sense_L s None.

Definition demand_body (supply demand : list num) (j : nat) : M num unit :=
  let constraint :=
    mk_SparsePair (map (fun i => shipment i j) (range (List.length supply)))
      (times 1%Z (List.length supply)) in
  dj <- eval (getitem demand j) ;;
  linear_constraints_add constraint sense_E dj None.

Definition transport_model (supply demand costs : list num) : M num unit :=
  objective_set_sense minimize ;;
  let vars := shipment_names supply demand in
  variables_add (Some costs) (Some (times 0%Z (List.length vars))) None vars ;;
  for_each (range (List.length supply)) (supply_body supply demand) ;;
  for_each (range (List.length demand)) (demand_body supply demand).

End Transport.

(** ** The external solver and the two scripts around it *)

(** What the scripts read back from [problem.solution] once [solve()] has
    returned.  The status is always there; the objective value and the
    values of the variables are not, for an infeasible model say, and the
    accessor then raises. *)
Record Solution (sval : Type) : Type := mk_Solution {
  get_status_string : string;
  get_objective_value : result sval;
  get_values : result (list sval);
  get_values_of : string -> result sval
}.
Arguments mk_Solution {sval}.
Arguments get_status_string {sval}.
Arguments get_objective_value {sval}.
Arguments get_values {sval}.
Arguments get_values_of {sval}.

(** The library behind the scripts.  [Cplex_raises] is [None] when
    [cplex.Cplex()] succeeds and the message of its [CplexError] otherwise;
    [solve] is [problem.solve()]; [show] formats a solution value for
    printing and [positive] is the test [x > 0]. *)
Class Library (num sval : Type) : Type := {
  Cplex_raises : option string;
  solve : Cplex num -> result (Solution sval);
  show : sval -> string;
  positive : sval -> bool
}.

Section Scripts.
Context {num sval : Type} {NUM : PyNum num} {TXT : Texts}
  {LIB : Library num sval}.

(** [problem = cplex.Cplex()]. *)
Definition cplex_Cplex : M num unit :=
  fun w =>
    match Cplex_raises with
    | Some msg => (Raise (CplexError msg), w)
    | None => (Ok tt, mk_World empty_problem (stdout w))
    end.

(** [problem.solve()], giving access to [problem.solution]. *)
Definition problem_solve : M num (Solution sval) :=
  fun w => (solve (problem w), w).

Definition assign_report (n : nat) (sol : Solution sval) (i : nat)
  : M num unit :=
  xi <- eval (getitem (x_names n) i) ;;
  vx <- eval (get_values_of sol xi) ;;
  yi <- eval (getitem (y_names n) i) ;;
  vy <- eval (get_values_of sol yi) ;;
  print ("(" ^^ show vx ^^ ", " ^^ show vy ^^ ")")%string.

Definition assign_problem (circles : list (circle num))
    (flows : list (list num)) (n : nat) : M num unit :=
  cplex_Cplex ;;
  assign_model circles flows n ;;
  sol <- problem_solve ;;
  print ("Solution status: " ^^ get_status_string sol)%string ;;
  v <- eval (get_objective_value sol) ;;
  print ("Objective value: " ^^ show v)%string ;;
  for_each (range n) (assign_report n sol).

Definition transport_report (vars : list string) (t : nat * sval)
  : M num unit :=
  let '(i, x) := t in
  if positive x then
    v <- eval (getitem vars i) ;;
    print (v ^^ " = " ^^ show x)%string
  else ret tt.

Definition transportation_problem (supply demand costs : list num)
    (show_solution : bool) : M num unit :=
  try_except_CplexError
    (cplex_Cplex ;;
     transport_model supply demand costs ;;
     sol <- problem_solve ;;
     if show_solution then
       print ("Solution status: " ^^ get_status_string sol)%string ;;
       v <- eval (get_objective_value sol) ;;
       print ("Objective value: " ^^ show v)%string ;;
       values <- eval (get_values sol) ;;
       for_each (enumerate values)
         (transport_report (shipment_names supply demand))
     else ret tt)
    (fun e => print ("Exception raised: " ^^ e)%string).


End Scripts.

(** ** [generate_data] of [transport.py] *)

(** The random source: [random.randint(a, b)] for [a <= b] draws a value and
    moves the generator on. *)
Class Random (rng : Type) : Type := {
  randint_draw : rng -> Z -> Z -> Z * rng
}.

Section GenerateData.
Context {rng : Type} `{Random rng}.
Local Open Scope Z_scope.

(** [random.randint(a, b)]: an empty range raises [ValueError]. *)
Definition randint (g : rng) (a b : Z) : result (Z * rng) :=
  if a <=? b then Ok (randint_draw g a b) else Raise ValueError.

(** [a // b]. *)
Definition floordiv (a b : Z) : result Z :=
  if b =? 0 then Raise ZeroDivisionError else Ok (a / b).

(** [sum(l)]. *)
Definition sum (l : list Z) : Z := fold_left Z.add l 0.

(** [[random.randint(a, hi) for _ in range(k)]], where [hi] is evaluated
    anew in every round and may raise. *)
Fixpoint randints (k : nat) (a : Z) (hi : result Z) (g : rng)
  : result (list Z * rng) :=
  match k with
  | O => Ok ([], g)
  | S k' =>
      match hi with
      | Raise e => Raise e
      | Ok b =>
          match randint g a b with
          | Raise e => Raise e
          | Ok (v, g1) =>
              match randints k' a hi g1 with
              | Raise e => Raise e
              | Ok (vs, g2) => Ok (v :: vs, g2)
              end
          end
      end
  end.

Definition generate_data (num_sources num_destinations : nat)
    (supply_range cost_range : Z * Z) (g : rng)
  : result (list Z * list Z * list Z * rng) :=
  match randints num_sources (fst supply_range) (Ok (snd supply_range)) g with
  | Raise e => Raise e
  | Ok (supply, g1) =>
      let total_supply := sum supply in
      match randints (num_destinations - 1) 1
              (floordiv total_supply (Z.of_nat num_destinations)) g1 with
      | Raise e => Raise e
      | Ok (demand0, g2) =>
          let demand := demand0 ++ [total_supply - sum demand0] in
          match randints (num_sources * num_destinations)
                  (fst cost_range) (Ok (snd cost_range)) g2 with
          | Raise e => Raise e
          | Ok (costs, g3) => Ok (supply, demand, costs, g3)
          end
      end
  end.

End GenerateData.

(** ** What a linear program means *)

Section Feasibility.
Local Open Scope R_scope.

(** The left-hand side of a row under an assignment of the variables. *)
Definition row_value (x : string -> R) (e : SparsePair) : R :=
  fold_right (fun t acc => IZR (snd t) * x (fst t) + acc) 0
    (combine (ind e) (val e)).

Definition row_holds (x : string -> R) (c : lincon Z) : Prop :=
  match senses c with
  | sense_L => row_value x (lin_expr c) <= IZR (rhs c)
  | sense_E => row_value x (lin_expr c) = IZR (rhs c)
  | sense_G => row_value x (lin_expr c) >= IZR (rhs c)
  end.

Definition in_bounds (x : string -> R) (v : var Z) : Prop :=
  IZR (var_lb v) <= x (var_name v) /\
  match var_ub v with
  | ub_inf => True
  | ub_num u => x (var_name v) <= IZR u
  end.

Definition feasible (m : Cplex Z) (x : string -> R) : Prop :=
  Forall (in_bounds x) (variables m) /\
  Forall (row_holds x) (linear_constraints m).

(** The sum of all shipment variables. *)
Definition total_shipped (m : Cplex Z) (x : string -> R) : R :=
  fold_right (fun v acc => x (var_name v) + acc) 0 (variables m).

End Feasibility.

(** ** Observations on a built model *)

Section Observations.
Context {num : Type}.

(** Does variable [nm] occur in row [c]? *)
Definition occurs (nm : string) (c : lincon num) : bool :=
  existsb (String.eqb nm) (ind (lin_expr c)).

(** The rows of [m] in which variable [nm] occurs. *)
Definition rows_with (nm : string) (m : Cplex num) : list (lincon num) :=
  filter (occurs nm) (linear_constraints m).

(** The coefficients variable [nm] carries in row [c]. *)
Definition coefficients (nm : string) (c : lincon num) : list Z :=
  map snd
    (filter (fun t => String.eqb nm (fst t))
       (combine (ind (lin_expr c)) (val (lin_expr c)))).

(** The world after some more rows were added to its problem. *)
Definition add_rows (rows : list (lincon num)) (w : World num) : World num :=
  mk_World
    (mk_Cplex (objective_sense (problem w)) (variables (problem w))
       (linear_constraints (problem w) ++ rows)
       (objective_linear (problem w)))
    (stdout w).

(** A statement that completes and prints nothing. *)
Definition quiet (m : M num unit) : Prop :=
  forall w, exists p, m w = (Ok tt, mk_World p (stdout w)).

(** The values [set_linear] was given for variable [nm]. *)
Definition objective_values (nm : string) (m : Cplex num) : list num :=
  map snd (filter (fun t => String.eqb nm (fst t)) (objective_linear m)).

End Observations.

(** Two distinct ordered pairs below [n] get one [d] name. *)
Definition ambiguous (n : nat) : Prop :=
  exists i j i' j',
    i < n /\ j < n /\ i' < n /\ j' < n /\ i <> j /\ i' <> j' /\
    (i, j) <> (i', j') /\ d_var (i, j) = d_var (i', j').

Definition pair_eqb (p q : nat * nat) : bool :=
  (fst p =? fst q) && (snd p =? snd q).

Definition ambiguousb (n : nat) : bool :=
  existsb (fun p =>
    existsb (fun q => negb (pair_eqb p q) && String.eqb (d_var p) (d_var q))
      (ordered_pairs n))
    (ordered_pairs n).

(** ** [transport.py]: one round of the timing sweep (lines 95 to 99) *)

Section Wrapper.
Context {rng sval : Type} {RNG : Random rng} {TXT : Texts}
  {LIB : Library Z sval}.

(** [wrapper()] of [measure_execution_time]: generate the data, then build
    and solve.  [Ok g'] carries the random state on to the next round. *)
Definition wrapper (num_sources num_destinations : nat)
    (supply_range cost_range : Z * Z) (show_solution : bool) (g : rng)
  : World Z -> result rng * World Z :=
  fun w =>
    match generate_data num_sources num_destinations supply_range cost_range g
    with
    | Raise e => (Raise e, w)
    | Ok (supply, demand, costs, g') =>
        match transportation_problem supply demand costs show_solution w with
        | (Ok _, w') => (Ok g', w')
        | (Raise e, w') => (Raise e, w')
        end
    end.

End Wrapper.

(** ** The transportation model written out *)

Section TransportSpec.
Context {num : Type} `{PyNum num}.

(** The shipment variables in order, the k-th with objective [costs[k]]. *)
Definition transport_variables (supply demand costs : list num)
  : list (var num) :=
  map (fun t => mk_var (Some (snd t)) (nth (fst t) costs (pint 0)) 0%Z ub_inf)
    (enumerate (shipment_names supply demand)).

(** The columns for any number of costs: as many as there are shipment
    variables or costs, whichever is more, named as far as the names go. *)
Definition transport_columns (supply demand costs : list num)
  : list (var num) :=
  map (fun k =>
         mk_var (nth_error (shipment_names supply demand) k)
           (nth k costs (pint 0)) 0%Z ub_inf)
    (range (Nat.max (List.length costs)
              (List.length supply * List.length demand))).

(** [variables.add] refuses the costs: there are costs and shipment
    variables, and not as many of the one as of the other. *)
Definition costs_refused (supply demand costs : list num) : bool :=
  negb (List.length costs =? 0)
  && negb (List.length supply * List.length demand =? 0)
  && negb (List.length costs =? List.length supply * List.length demand).

(** The row of source [i]: its shipments sum to at most [supply[i]]. *)
Definition supply_row (supply demand : list num) (i : nat) : lincon num :=
  mk_lincon
    (mk_SparsePair (map (fun j => shipment i j) (range (List.length demand)))
       (times 1%Z (List.length demand)))
    sense_L (nth i supply (pint 0)) None.

(** The row of destination [j]: its shipments sum to [demand[j]]. *)
Definition demand_row (supply demand : list num) (j : nat) : lincon num :=
  mk_lincon
    (mk_SparsePair (map (fun i => shipment i j) (range (List.length supply)))
       (times 1%Z (List.length supply)))
    sense_E (nth j demand (pint 0)) None.

Definition transport_rows (supply demand : list num) : list (lincon num) :=
  map (supply_row supply demand) (range (List.length supply))
  ++ map (demand_row supply demand) (range (List.length demand)).

Definition transport_spec (supply demand costs : list num) : Cplex num :=
  mk_Cplex minimize (transport_variables supply demand costs)
    (transport_rows supply demand) [].

(** The model for any number of costs that [variables.add] accepts. *)
Definition transport_any (supply demand costs : list num) : Cplex num :=
  mk_Cplex minimize (transport_columns supply demand costs)
    (transport_rows supply demand) [].

End TransportSpec.

(** ** Sums and characters *)

(** The sum of a list of reals. *)
Definition sum_R (l : list R) : R := fold_right Rplus 0%R l.

(** Does the character [c] occur in [s]? *)
Fixpoint mentions (c : ascii) (s : string) : bool :=
  match s with
  | EmptyString => false
  | String c' s' => Ascii.eqb c c' || mentions c s'
  end.

(** A statement that leaves the console as it was, however it ends. *)
Definition silent {num A : Type} (m : M num A) : Prop :=
  forall w, stdout (snd (m w)) = stdout w.

(** ** Concrete inputs *)

(** Texts for the API's own errors, for the runs on concrete inputs. *)
#[export] Instance texts : Texts := {|
  inconsistent_arguments := "inconsistent arguments";
  duplicate_entries := "CPLEX Error  1222: Duplicate entry or entries."
|}.

(** A library whose solver finds the model infeasible: it returns, and the
    objective value and the values are not there. *)
Definition infeasible : Library Z Z := {|
  Cplex_raises := None;
  solve := fun _ =>
    Ok (mk_Solution "infeasible"
          (Raise (CplexError "CPLEX Error  1217: No solution exists."))
          (Raise (CplexError "CPLEX Error  1217: No solution exists."))
          (fun _ =>
             Raise (CplexError "CPLEX Error  1217: No solution exists.")));
  show := fun z => NilZero.string_of_int (Z.to_int z);
  positive := fun z => (0 <? z)%Z
|}.

(** The two-facility scenario of the specification. *)
Definition circles2 : list (circle Z) := [(0, 0, 5); (10, 0, 5)]%Z.
Definition flows2 : list (list Z) := [[0; 3]; [3; 0]]%Z.

(** The same flows with another diagonal. *)
Definition flows2_diagonal : list (list Z) := [[7; 3]; [3; 9]]%Z.

(** Twelve unit circles at the origin. *)
Definition circles12 : list (circle Z) := times (0, 0, 1)%Z 12.

(** A 12 x 12 flow matrix with a zero diagonal and [12 i + j] elsewhere. *)
Definition flows12 : list (list Z) :=
  map (fun i =>
         map (fun j => if i =? j then 0%Z else Z.of_nat (12 * i + j))
           (range 12))
      (range 12).

(** The 2 x 2 transportation scenario of the specification. *)
Definition supply22 : list Z := [10; 20]%Z.
Definition demand22 : list Z := [15; 15]%Z.
Definition costs22 : list Z := [1; 2; 3; 4]%Z.

(** A feasible shipment plan for it. *)
Definition plan22 (nm : string) : R :=
  if String.eqb nm "x0_0" then 10%R
  else if String.eqb nm "x1_0" then 5%R
  else if String.eqb nm "x1_1" then 15%R
  else 0%R.

(** A library whose solver always fails, as without a licence. *)
Definition unlicensed : Library Z Z := {|
  Cplex_raises := None;
  solve := fun _ => Raise (CplexError "CPLEX Error  1016: Community Edition.");
  show := fun z => NilZero.string_of_int (Z.to_int z);
  positive := fun z => (0 <? z)%Z
|}.

(** Three circles, one more than [n = 2] allows. *)
Definition circles3 : list (circle Z) := [(0, 0, 5); (10, 0, 5); (5, 5, 5)]%Z.

(** One facility whose circle has a negative radius. *)
Definition circles_negative : list (circle Z) := [(0, 0, -1)%Z].
Definition flows1 : list (list Z) := [[0%Z]].

(** A feasible placement for the two-facility scenario. *)
Definition plan2 (nm : string) : R :=
  if String.eqb nm "x1" then 5%R
  else if String.eqb nm "d01" then 10%R
  else if String.eqb nm "d10" then 10%R
  else 0%R.

(** A library whose solver reports every variable at zero. *)
Definition all_zero : Library Z Z := {|
  Cplex_raises := None;
  solve := fun p =>
    Ok (mk_Solution "optimal" (Ok 0%Z)
          (Ok (map (fun _ => 0%Z) (variables p))) (fun _ => Ok 0%Z));
  show := fun z => NilZero.string_of_int (Z.to_int z);
  positive := fun z => (0 <? z)%Z
|}.

(** A linear congruential generator as a random source. *)
Definition lcg_draw (g a b : Z) : Z * Z :=
  ((a + g mod (b - a + 1))%Z, ((1103515245 * g + 12345) mod 2147483648)%Z).

#[export] Instance lcg : Random Z := {|
  randint_draw := lcg_draw
|}.

(** * Properties *)

(** ** Python lists *)

Section ListFacts.
Context {A : Type}.

Lemma getitem_Ok (l : list A) (i : nat) (a : A) :
  nth_error l i = Some a -> getitem l i = Ok a.
Proof. unfold getitem. intros ->. reflexivity. Qed.

Lemma getitem_Raise (l : list A) (i : nat) :
  List.length l <= i -> getitem l i = Raise IndexError.
Proof.
  intros Hle. unfold getitem.
  apply nth_error_None in Hle. rewrite Hle. reflexivity.
Qed.

Lemma getitem_cases (l : list A) (i : nat) :
  (i < List.length l /\ exists a, getitem l i = Ok a) \/
  (List.length l <= i /\ getitem l i = Raise IndexError).
Proof.
  destruct (Nat.lt_ge_cases i (List.length l)) as [Hlt | Hge].
  - left. split; [exact Hlt |].
    destruct (nth_error l i) as [a |] eqn:E.
    + exists a. apply getitem_Ok, E.
    + apply nth_error_None in E. lia.
  - right. split; [exact Hge | apply getitem_Raise, Hge].
Qed.

Lemma getitem_map_range (f : nat -> A) (n i : nat) :
  i < n -> getitem (map f (range n)) i = Ok (f i).
Proof.
  intros Hi. apply getitem_Ok. unfold range.
  rewrite nth_error_map, nth_error_seq.
  assert (E : (i <? n) = true) by (apply Nat.ltb_lt; exact Hi).
  rewrite E. reflexivity.
Qed.

Lemma in_combine_seq (l : list A) (s i : nat) (a : A) :
  In (i, a) (combine (seq s (List.length l)) l) ->
  s <= i /\ nth_error l (i - s) = Some a.
Proof.
  revert s. induction l as [| b l IH]; intros s; simpl.
  - intros [].
  - intros [E | Hin].
    + inversion E; subst. rewrite Nat.sub_diag. split; [lia | reflexivity].
    + apply IH in Hin. destruct Hin as [Hle Hnth].
      split; [lia |].
      replace (i - s) with (S (i - S s)) by lia. exact Hnth.
Qed.

Lemma in_enumerate (l : list A) (i : nat) (a : A) :
  In (i, a) (enumerate l) -> nth_error l i = Some a.
Proof.
  intros Hin. apply in_combine_seq in Hin.
  rewrite Nat.sub_0_r in Hin. apply Hin.
Qed.

Lemma in_enumerate_lt (l : list A) (i : nat) (a : A) :
  In (i, a) (enumerate l) -> i < List.length l.
Proof.
  intros Hin. apply in_enumerate in Hin.
  apply nth_error_Some. congruence.
Qed.

Lemma map_snd_combine_seq (l : list A) (s : nat) :
  map snd (combine (seq s (List.length l)) l) = l.
Proof.
  revert s. induction l as [| b l IH]; intros s; simpl.
  - reflexivity.
  - rewrite IH. reflexivity.
Qed.

Lemma map_snd_enumerate (l : list A) : map snd (enumerate l) = l.
Proof. apply map_snd_combine_seq. Qed.

Lemma length_enumerate (l : list A) :
  List.length (enumerate l) = List.length l.
Proof.
  unfold enumerate. rewrite length_combine, length_seq. apply Nat.min_id.
Qed.

Lemma nth_times (v : A) (k i : nat) : nth i (times v k) v = v.
Proof.
  unfold times. revert i. induction k as [| k IH]; intros [| i]; simpl; auto.
Qed.

End ListFacts.

Lemma map_enumerate_snd {A B : Type} (g : A -> B) (f : nat * A -> B)
    (l : list A) :
  (forall i a, f (i, a) = g a) -> map f (enumerate l) = map g l.
Proof.
  intros Hf.
  rewrite <- (map_snd_enumerate l) at 2. rewrite map_map.
  apply map_ext. intros [i a]. apply Hf.
Qed.

Lemma comprehension_cases {A B : Type} (f : A -> result B) (g : A -> B)
    (ok : A -> bool) (e : exn) (l : list A) :
  (forall a, In a l -> ok a = true -> f a = Ok (g a)) ->
  (forall a, In a l -> ok a = false -> f a = Raise e) ->
  comprehension f l = if forallb ok l then Ok (map g l) else Raise e.
Proof.
  induction l as [| a l IH]; intros Hok Hbad; simpl.
  - reflexivity.
  - destruct (ok a) eqn:Ea; simpl.
    + rewrite (Hok a (or_introl eq_refl) Ea).
      rewrite IH.
      * destruct (forallb ok l); reflexivity.
      * intros b Hb. apply Hok. right. exact Hb.
      * intros b Hb. apply Hbad. right. exact Hb.
    + rewrite (Hbad a (or_introl eq_refl) Ea). reflexivity.
Qed.

Lemma forallb_enumerate_snd {A : Type} (p : A -> bool) (l : list A) :
  forallb (fun t => p (snd t)) (enumerate l) = forallb p l.
Proof.
  rewrite <- (map_snd_enumerate l) at 2.
  induction (enumerate l) as [| t k IH]; simpl.
  - reflexivity.
  - rewrite IH. reflexivity.
Qed.

Lemma flat_map_enumerate_snd {A B : Type} (g : A -> list B) (l : list A) :
  flat_map (fun t => g (snd t)) (enumerate l) = flat_map g l.
Proof.
  rewrite <- (map_snd_enumerate l) at 2.
  induction (enumerate l) as [| t k IH]; simpl.
  - reflexivity.
  - rewrite IH. reflexivity.
Qed.

Lemma nth_error_combine_seq {A : Type} (l : list A) (s i : nat) (a : A) :
  nth_error l i = Some a ->
  nth_error (combine (seq s (List.length l)) l) i = Some (s + i, a).
Proof.
  revert s i. induction l as [| b l IH]; intros s [| i]; simpl;
    try discriminate.
  - intros [= ->]. rewrite Nat.add_0_r. reflexivity.
  - intros Hi. rewrite (IH (S s) i Hi). f_equal. f_equal. lia.
Qed.

Lemma enumerate_In {A : Type} (l : list A) (i : nat) (a : A) :
  nth_error l i = Some a -> In (i, a) (enumerate l).
Proof.
  intros Hi. apply (nth_error_In _ i).
  unfold enumerate. rewrite (nth_error_combine_seq l 0 i a Hi). reflexivity.
Qed.

Lemma forallb_enumerate_lt {A : Type} (l : list A) (n : nat) :
  forallb (fun t => fst t <? n) (enumerate l) = (List.length l <=? n).
Proof.
  destruct (Nat.leb_spec (List.length l) n) as [Hle | Hgt].
  - apply forallb_forall. intros [i a] Hin. simpl.
    apply in_enumerate_lt in Hin. apply Nat.ltb_lt. lia.
  - destruct (forallb (fun t => fst t <? n) (enumerate l)) eqn:E;
      [| reflexivity].
    rewrite forallb_forall in E.
    destruct (nth_error l n) as [a |] eqn:En.
    + specialize (E _ (enumerate_In l n a En)).
      simpl in E. apply Nat.ltb_lt in E. lia.
    + apply nth_error_None in En. lia.
Qed.

(** ** The ordered pairs *)

Lemma filter_map_pair (i : nat) (l : list nat) :
  filter (fun p => negb (fst p =? snd p)) (map (fun j => (i, j)) l) =
  flat_map (fun j => if negb (i =? j) then [(i, j)] else []) l.
Proof.
  induction l as [| j l IH]; simpl.
  - reflexivity.
  - rewrite IH. destruct (i =? j); reflexivity.
Qed.

Lemma pairs_list_prod (l l' : list nat) :
  flat_map (fun i =>
    flat_map (fun j => if negb (i =? j) then [(i, j)] else []) l') l =
  filter (fun p => negb (fst p =? snd p)) (list_prod l l').
Proof.
  induction l as [| i l IH]; simpl.
  - reflexivity.
  - rewrite filter_app, filter_map_pair, IH. reflexivity.
Qed.

Lemma pairs_ordered (n : nat) : pairs n = ordered_pairs n.
Proof. apply pairs_list_prod. Qed.

Lemma d_names_pairs (l l' : list nat) :
  flat_map (fun i =>
    flat_map (fun j =>
      if negb (i =? j) then [("d" ^^ str i ^^ str j)%string] else []) l') l =
  map d_var
    (flat_map (fun i =>
       flat_map (fun j => if negb (i =? j) then [(i, j)] else []) l') l).
Proof.
  induction l as [| i l IH]; cbn [flat_map map].
  - reflexivity.
  - rewrite map_app, IH. f_equal.
    clear IH. induction l' as [| j l' IH']; cbn [flat_map map].
    + reflexivity.
    + rewrite map_app, IH'. destruct (i =? j); reflexivity.
Qed.

Lemma d_names_ordered (n : nat) : d_names n = map d_var (ordered_pairs n).
Proof. rewrite <- pairs_ordered. apply d_names_pairs. Qed.

Lemma in_ordered_pairs (n i j : nat) :
  In (i, j) (ordered_pairs n) <-> i < n /\ j < n /\ i <> j.
Proof.
  unfold ordered_pairs, range.
  rewrite filter_In, in_prod_iff, !in_seq. simpl.
  rewrite negb_true_iff, Nat.eqb_neq. lia.
Qed.

Lemma length_inner_pairs (i a k : nat) :
  List.length
    (flat_map (fun j => if negb (i =? j) then [(i, j)] else []) (seq a k))
  + (if (a <=? i) && (i <? a + k) then 1 else 0) = k.
Proof.
  revert a. induction k as [| k IH]; intros a; cbn [seq flat_map].
  - destruct (Nat.leb_spec a i); destruct (Nat.ltb_spec i (a + 0));
      simpl; lia.
  - rewrite length_app. specialize (IH (S a)).
    destruct (Nat.eqb_spec i a);
      destruct (Nat.leb_spec a i); destruct (Nat.ltb_spec i (a + S k));
      destruct (Nat.leb_spec (S a) i); destruct (Nat.ltb_spec i (S a + k));
      cbn [negb List.length andb] in *; lia.
Qed.

Lemma length_flat_map_const {A B : Type} (f : A -> list B) (l : list A)
    (c : nat) :
  (forall a, In a l -> List.length (f a) = c) ->
  List.length (flat_map f l) = List.length l * c.
Proof.
  induction l as [| a l IH]; intros Hf; simpl.
  - reflexivity.
  - rewrite length_app, Hf by (left; reflexivity).
    rewrite IH by (intros b Hb; apply Hf; right; exact Hb). reflexivity.
Qed.

Lemma length_ordered_pairs (n : nat) :
  List.length (ordered_pairs n) = n * (n - 1).
Proof.
  rewrite <- pairs_ordered. unfold pairs.
  rewrite (length_flat_map_const _ _ (n - 1)).
  - unfold range. rewrite length_seq. reflexivity.
  - intros i Hi. unfold range in Hi. apply in_seq in Hi.
    pose proof (length_inner_pairs i 0 n) as Hlen.
    replace (0 <=? i) with true in Hlen by (symmetry; apply Nat.leb_le; lia).
    replace (i <? 0 + n) with true in Hlen
      by (symmetry; apply Nat.ltb_lt; lia).
    simpl in Hlen. unfold range. lia.
Qed.

(** ** Ordered pairs are listed once *)

Lemma NoDup_list_prod {A B : Type} (l : list A) (l' : list B) :
  NoDup l -> NoDup l' -> NoDup (list_prod l l').
Proof.
  intros Hl Hl'. induction Hl as [| a l Ha Hl IH]; simpl.
  - constructor.
  - apply NoDup_app.
    + apply NoDup_map_NoDup_ForallPairs; [| exact Hl'].
      intros b b' _ _ [= ->]. reflexivity.
    + exact IH.
    + intros [a' b] Hin Hin'.
      apply in_map_iff in Hin. destruct Hin as [b' [[= <- <-] _]].
      apply in_prod_iff in Hin'. apply Ha, Hin'.
Qed.

Lemma NoDup_ordered_pairs (n : nat) : NoDup (ordered_pairs n).
Proof.
  unfold ordered_pairs, range.
  apply NoDup_filter, NoDup_list_prod; apply seq_NoDup.
Qed.

(** ** The names of the auxiliary variables *)

Lemma pair_eqb_false (p q : nat * nat) : p <> q -> pair_eqb p q = false.
Proof.
  destruct p as [i j], q as [i' j']. unfold pair_eqb. simpl. intros Hneq.
  destruct (Nat.eqb_spec i i'); destruct (Nat.eqb_spec j j');
    try reflexivity.
  subst. contradiction.
Qed.

Lemma ambiguous_ambiguousb (n : nat) : ambiguous n -> ambiguousb n = true.
Proof.
  intros [i [j [i' [j' [Hi [Hj [Hi' [Hj' [Hij [Hij' [Hneq Hname]]]]]]]]]]].
  unfold ambiguousb. apply existsb_exists. exists (i, j). split.
  - apply in_ordered_pairs. auto.
  - apply existsb_exists. exists (i', j'). split.
    + apply in_ordered_pairs. auto.
    + rewrite (pair_eqb_false _ _ Hneq), Hname. simpl. apply String.eqb_refl.
Qed.

Lemma ambiguous_mono (n m : nat) : n <= m -> ambiguous n -> ambiguous m.
Proof.
  intros Hle [i [j [i' [j' [Hi [Hj [Hi' [Hj' Hrest]]]]]]]].
  exists i, j, i', j'. repeat split; try lia; apply Hrest.
Qed.

Lemma unambiguous_le_11 (n : nat) : n <= 11 -> ~ ambiguous n.
Proof.
  intros Hn Ha.
  assert (Ha11 : ambiguous 11) by (apply (ambiguous_mono n); assumption).
  apply ambiguous_ambiguousb in Ha11.
  vm_compute in Ha11. discriminate.
Qed.

(** C5, as the code has it.  The naming [f"d{i}{j}"] gives two distinct
    ordered pairs below [n] the same name if and only if [n >= 12]: from 12
    on, [(1, 10)] and [(11, 0)] are both named [d110]; up to 11 every name
    belongs to one pair. *)
Theorem d_names_ambiguous_iff (n : nat) : ambiguous n <-> 12 <= n.
Proof.
  split.
  - intros Ha. destruct (Nat.le_gt_cases 12 n) as [Hle | Hlt]; [exact Hle |].
    exfalso. apply (unambiguous_le_11 n); [lia | exact Ha].
  - intros Hn. exists 1, 10, 11, 0.
    repeat split; try lia; try discriminate.
Qed.

(** At [n = 10] no two distinct ordered pairs share a name. *)
Lemma d_names_unambiguous_10 : ambiguousb 10 = false /\ ~ ambiguous 10.
Proof.
  split; [vm_compute; reflexivity |].
  intros Ha. apply ambiguous_ambiguousb in Ha.
  vm_compute in Ha. discriminate.
Qed.

Lemma filter_unique {A : Type} (f : A -> bool) (l : list A) (p : A) :
  NoDup l -> In p l -> (forall q, In q l -> f q = true -> q = p) ->
  f p = true -> filter f l = [p].
Proof.
  intros Hnd. induction Hnd as [| a l Ha Hnd IH]; intros Hin Huniq Hp.
  - destruct Hin.
  - simpl. destruct Hin as [-> | Hin].
    + rewrite Hp. f_equal.
      destruct (filter f l) as [| q k] eqn:E; [reflexivity |].
      assert (Hq : In q (filter f l)) by (rewrite E; left; reflexivity).
      apply filter_In in Hq. destruct Hq as [Hql Hfq].
      rewrite (Huniq q (or_intror Hql) Hfq) in Hql. contradiction.
    + destruct (f a) eqn:Efa.
      * rewrite (Huniq a (or_introl eq_refl) Efa) in Ha. contradiction.
      * apply IH; auto. intros q Hq. apply Huniq. right. exact Hq.
Qed.

Lemma filter_flat_map {A B : Type} (f : B -> bool) (g : A -> list B)
    (l : list A) :
  filter f (flat_map g l) = flat_map (fun a => filter f (g a)) l.
Proof.
  induction l as [| a l IH]; simpl.
  - reflexivity.
  - rewrite filter_app, IH. reflexivity.
Qed.

Lemma unambiguous_names (n : nat) (p q : nat * nat) :
  ~ ambiguous n -> In p (ordered_pairs n) -> In q (ordered_pairs n) ->
  d_var q = d_var p -> q = p.
Proof.
  intros Hna Hp Hq Hname.
  destruct p as [i j], q as [i' j'].
  apply in_ordered_pairs in Hp. apply in_ordered_pairs in Hq.
  destruct (Nat.eq_dec i' i) as [Hi | Hi];
    [destruct (Nat.eq_dec j' j) as [Hj | Hj]; [congruence |] |];
    exfalso; apply Hna; exists i', j', i, j;
    repeat split; try tauto; congruence.
Qed.

Lemma pairs_named (n : nat) (p : nat * nat) :
  ~ ambiguous n -> In p (ordered_pairs n) ->
  filter (fun q => String.eqb (d_var p) (d_var q)) (ordered_pairs n) = [p].
Proof.
  intros Hna Hp. apply filter_unique.
  - apply NoDup_ordered_pairs.
  - exact Hp.
  - intros q Hq Heq. apply String.eqb_eq in Heq.
    apply (unambiguous_names n p q Hna Hp Hq). symmetry. exact Heq.
  - apply String.eqb_refl.
Qed.

(** ** Lists without repetition *)

Lemma NoDup_map_on {A B : Type} (f : A -> B) (l : list A) :
  NoDup l -> (forall a b, In a l -> In b l -> f a = f b -> a = b) ->
  NoDup (map f l).
Proof.
  intros Hnd Hinj. apply NoDup_map_NoDup_ForallPairs; assumption.
Qed.

Lemma NoDup_map_same {A B : Type} (f : A -> B) (l : list A) (a b : A) :
  NoDup (map f l) -> In a l -> In b l -> f a = f b -> a = b.
Proof.
  induction l as [| c l IH]; simpl; intros Hnd Ha Hb E.
  - destruct Ha.
  - apply NoDup_cons_iff in Hnd. destruct Hnd as [Hc Hnd].
    destruct Ha as [-> | Ha]; destruct Hb as [-> | Hb].
    + reflexivity.
    + exfalso. apply Hc. rewrite E. apply in_map. exact Hb.
    + exfalso. apply Hc. rewrite <- E. apply in_map. exact Ha.
    + apply IH; assumption.
Qed.

(** ** Names given twice *)

Lemma has_dup_NoDup (l : list string) : has_dup l = false <-> NoDup l.
Proof.
  induction l as [| a l IH]; simpl.
  - split; [constructor | reflexivity].
  - rewrite orb_false_iff, IH, NoDup_cons_iff. split.
    + intros [Ha Hl]. split; [| exact Hl].
      intros Hin. assert (E : existsb (String.eqb a) l = true).
      { apply existsb_exists. exists a. split; [exact Hin |].
        apply String.eqb_refl. }
      congruence.
    + intros [Ha Hl]. split; [| exact Hl].
      destruct (existsb (String.eqb a) l) eqn:E; [| reflexivity].
      apply existsb_exists in E. destruct E as [b [Hb Hab]].
      apply String.eqb_eq in Hab. subst b. contradiction.
Qed.

(** The auxiliary names hold a name twice exactly from [n = 12] on. *)
Lemma has_dup_d_names (n : nat) : has_dup (d_names n) = (12 <=? n).
Proof.
  rewrite d_names_ordered.
  destruct (Nat.leb_spec 12 n) as [Hn | Hn].
  - destruct (has_dup (map d_var (ordered_pairs n))) eqn:E; [reflexivity |].
    apply has_dup_NoDup in E. exfalso.
    assert (Eq : (1, 10) = (11, 0)).
    { apply (NoDup_map_same d_var (ordered_pairs n)); try exact E.
      - apply in_ordered_pairs. lia.
      - apply in_ordered_pairs. lia.
      - reflexivity. }
    discriminate.
  - apply has_dup_NoDup. apply NoDup_map_on; [apply NoDup_ordered_pairs |].
    intros p q Hp Hq E.
    apply (unambiguous_names n q p); try assumption.
    apply unambiguous_le_11. lia.
Qed.

(** ** Running the loops of the builders *)

Section Runs.
Context {num : Type} `{PyNum num}.

Lemma add_rows_nil (w : World num) : add_rows [] w = w.
Proof.
  destruct w as [[s vs cs os] out]. unfold add_rows. simpl.
  rewrite app_nil_r. reflexivity.
Qed.

Lemma add_rows_app (r1 r2 : list (lincon num)) (w : World num) :
  add_rows r2 (add_rows r1 w) = add_rows (r1 ++ r2) w.
Proof. unfold add_rows. simpl. rewrite app_assoc. reflexivity. Qed.

(** A loop whose rounds each add rows, or raise [e], adds the rows of all
    rounds, or raises [e] at the first round that does. *)
Lemma for_each_rows {A : Type} (body : A -> M num unit)
    (g : A -> list (lincon num)) (ok : A -> bool) (e : exn) (l : list A) :
  (forall a, In a l -> ok a = true ->
     forall w, body a w = (Ok tt, add_rows (g a) w)) ->
  (forall a, In a l -> ok a = false ->
     forall w, fst (body a w) = Raise e) ->
  forall w,
    if forallb ok l
    then for_each l body w = (Ok tt, add_rows (flat_map g l) w)
    else fst (for_each l body w) = Raise e.
Proof.
  induction l as [| a l IH]; intros Hok Hbad w; simpl.
  - unfold ret. rewrite add_rows_nil. reflexivity.
  - unfold bind. destruct (ok a) eqn:Ea; simpl.
    + rewrite (Hok a (or_introl eq_refl) Ea w).
      assert (IH' := IH (fun b Hb => Hok b (or_intror Hb))
                        (fun b Hb => Hbad b (or_intror Hb))
                        (add_rows (g a) w)).
      destruct (forallb ok l).
      * rewrite IH', add_rows_app. reflexivity.
      * exact IH'.
    + pose proof (Hbad a (or_introl eq_refl) Ea w) as Hr.
      destruct (body a w) as [[u | e'] w']; simpl in Hr.
      * discriminate.
      * simpl. exact Hr.
Qed.

Lemma pair_xy_Ok (n i : nat) (vals : list Z) :
  i < n ->
  pair_xy (x_names n) (y_names n) i vals =
  Ok (mk_SparsePair [x_var i; y_var i] vals).
Proof.
  intros Hi. unfold pair_xy, x_names, y_names.
  rewrite !getitem_map_range by exact Hi. reflexivity.
Qed.

Lemma pair_xy_Raise (n i : nat) (vals : list Z) :
  n <= i ->
  pair_xy (x_names n) (y_names n) i vals = Raise IndexError.
Proof.
  intros Hi. unfold pair_xy.
  rewrite getitem_Raise; [reflexivity |].
  unfold x_names, range. rewrite length_map, length_seq. exact Hi.
Qed.

Lemma circle_body_Ok (n : nat) (t : nat * circle num) (w : World num) :
  fst t < n ->
  circle_body (x_names n) (y_names n) t w =
  (Ok tt, add_rows (spec_circle_rows t) w).
Proof.
  destruct t as [i [[a b] r]]. simpl fst. intros Hi.
  unfold circle_body, bind, eval.
  rewrite !(pair_xy_Ok n i _ Hi).
  unfold linear_constraints_add, update_problem, add_rows,
    spec_circle_rows. simpl.
  rewrite <- !app_assoc. reflexivity.
Qed.

Lemma circle_body_Raise (n : nat) (t : nat * circle num) (w : World num) :
  n <= fst t ->
  fst (circle_body (x_names n) (y_names n) t w) = Raise IndexError.
Proof.
  destruct t as [i [[a b] r]]. simpl fst. intros Hi.
  unfold circle_body, bind, eval.
  rewrite (pair_xy_Raise n i _ Hi). reflexivity.
Qed.

Lemma circle_loop (circles : list (circle num)) (n : nat) (w : World num) :
  if List.length circles <=? n
  then for_each (enumerate circles) (circle_body (x_names n) (y_names n)) w
       = (Ok tt, add_rows (flat_map spec_circle_rows (enumerate circles)) w)
  else fst (for_each (enumerate circles)
              (circle_body (x_names n) (y_names n)) w) = Raise IndexError.
Proof.
  rewrite <- forallb_enumerate_lt.
  apply for_each_rows.
  - intros t _ Ht w'. apply circle_body_Ok. apply Nat.ltb_lt. exact Ht.
  - intros t _ Ht w'. apply circle_body_Raise. apply Nat.ltb_ge. exact Ht.
Qed.

Lemma getitem_d_names (n idx : nat) (p : nat * nat) :
  In (idx, p) (enumerate (pairs n)) ->
  getitem (d_names n) idx = Ok (d_var p).
Proof.
  intros Hin. apply in_enumerate in Hin.
  apply getitem_Ok. rewrite d_names_ordered, <- pairs_ordered.
  rewrite nth_error_map, Hin. reflexivity.
Qed.

Lemma objective_term_Ok (flows : list (list num)) (n : nat)
    (t : nat * (nat * nat)) :
  In t (enumerate (pairs n)) -> has_flow flows (snd t) = true ->
  objective_term (d_names n) flows t =
  Ok (d_var (snd t), flow_at flows (snd t)).
Proof.
  destruct t as [idx [i j]]. intros Hin Hflow.
  unfold objective_term, flows_getitem.
  rewrite (getitem_d_names n idx (i, j) Hin).
  unfold has_flow in Hflow. simpl in Hflow.
  destruct (nth_error flows i) as [row |] eqn:Ei; [| discriminate].
  apply Nat.ltb_lt in Hflow.
  rewrite (getitem_Ok flows i row Ei).
  destruct (nth_error row j) as [f |] eqn:Ej.
  - rewrite (getitem_Ok row j f Ej). unfold flow_at. simpl.
    rewrite (nth_error_nth flows i [] Ei), (nth_error_nth row j _ Ej).
    reflexivity.
  - apply nth_error_None in Ej. lia.
Qed.

Lemma objective_term_Raise (flows : list (list num)) (n : nat)
    (t : nat * (nat * nat)) :
  In t (enumerate (pairs n)) -> has_flow flows (snd t) = false ->
  objective_term (d_names n) flows t = Raise IndexError.
Proof.
  destruct t as [idx [i j]]. intros Hin Hflow.
  unfold objective_term, flows_getitem.
  rewrite (getitem_d_names n idx (i, j) Hin).
  unfold has_flow in Hflow. simpl in Hflow.
  destruct (nth_error flows i) as [row |] eqn:Ei.
  - rewrite (getitem_Ok flows i row Ei).
    apply Nat.ltb_ge in Hflow. rewrite (getitem_Raise row j Hflow).
    reflexivity.
  - apply nth_error_None in Ei. rewrite (getitem_Raise flows i Ei).
    reflexivity.
Qed.

Lemma objective_terms_run (flows : list (list num)) (n : nat) :
  comprehension (objective_term (d_names n) flows) (enumerate (pairs n)) =
  if flows_cover flows n then Ok (spec_objective flows n)
  else Raise IndexError.
Proof.
  rewrite (comprehension_cases _
             (fun t => (d_var (snd t), flow_at flows (snd t)))
             (fun t => has_flow flows (snd t)) IndexError).
  - rewrite (forallb_enumerate_snd (has_flow flows)).
    rewrite pairs_ordered. unfold flows_cover.
    destruct (forallb _ (ordered_pairs n)); [| reflexivity].
    unfold spec_objective.
    rewrite (map_enumerate_snd
               (fun p => (d_var p, flow_at flows p))).
    + reflexivity.
    + intros i a. reflexivity.
  - intros t Hin Ht. apply objective_term_Ok; assumption.
  - intros t Hin Ht. apply objective_term_Raise; assumption.
Qed.

Lemma pair_aux_Ok (n idx : nat) (p : nat * nat) (vals : list Z) :
  In (idx, p) (enumerate (pairs n)) ->
  pair_aux (x_names n) (y_names n) (d_names n) (fst p) (snd p) idx vals =
  Ok (mk_SparsePair
        [x_var (fst p); x_var (snd p); y_var (fst p); y_var (snd p); d_var p]
        vals).
Proof.
  intros Hin. pose proof (getitem_d_names n idx p Hin) as Hd.
  apply in_enumerate, nth_error_In in Hin.
  rewrite pairs_ordered in Hin. destruct p as [i j].
  apply in_ordered_pairs in Hin. destruct Hin as [Hi [Hj _]].
  unfold pair_aux, x_names, y_names. simpl fst. simpl snd.
  rewrite !getitem_map_range by assumption.
  rewrite Hd. reflexivity.
Qed.

Lemma aux_body_Ok (n : nat) (t : nat * (nat * nat)) (w : World num) :
  In t (enumerate (pairs n)) ->
  aux_body (x_names n) (y_names n) (d_names n) t w =
  (Ok tt, add_rows (spec_aux_rows (snd t)) w).
Proof.
  destruct t as [idx [i j]]. intros Hin.
  unfold aux_body, bind, eval.
  rewrite !(pair_aux_Ok n idx (i, j) _ Hin).
  unfold linear_constraints_add, update_problem, add_rows, spec_aux_rows.
  simpl. rewrite <- !app_assoc. reflexivity.
Qed.

Lemma aux_loop (n : nat) (w : World num) :
  for_each (enumerate (pairs n))
    (aux_body (x_names n) (y_names n) (d_names n)) w =
  (Ok tt, add_rows (flat_map spec_aux_rows (ordered_pairs n)) w).
Proof.
  pose proof (for_each_rows
                (aux_body (x_names n) (y_names n) (d_names n))
                (fun t => spec_aux_rows (snd t)) (fun _ => true)
                IndexError (enumerate (pairs n))) as Hloop.
  assert (Hall : forallb (fun _ : nat * (nat * nat) => true)
                   (enumerate (pairs n)) = true)
    by (apply forallb_forall; reflexivity).
  rewrite Hall in Hloop.
  rewrite Hloop.
  - rewrite flat_map_enumerate_snd, pairs_ordered. reflexivity.
  - intros t Hin _ w'. apply aux_body_Ok. exact Hin.
  - intros t _ Hfalse. discriminate.
Qed.

End Runs.

(** ** The whole run of the assignment builder *)

Section AssignRun.
Context {num : Type} `{PyNum num} {TXT : Texts}.

Lemma arg_fits_same (k : nat) : arg_fits k k = true.
Proof. unfold arg_fits. rewrite Nat.eqb_refl. apply orb_true_r. Qed.

Lemma arg_fits_empty (k : nat) : arg_fits k 0 = true.
Proof. reflexivity. Qed.

Lemma map_nth_error_range {A B : Type} (f : option A -> B) (l : list A) :
  map (fun i => f (nth_error l i)) (range (List.length l)) =
  map (fun a => f (Some a)) l.
Proof.
  unfold range. induction l as [| a l IH]; [reflexivity |].
  cbn [List.length seq map nth_error]. f_equal.
  rewrite <- seq_shift, map_map. exact IH.
Qed.

Lemma nth_nil {A : Type} (i : nat) (d : A) : nth i [] d = d.
Proof. destruct i; reflexivity. Qed.

(** Adding named columns with bounds [0, inf) and no objective. *)
Lemma variables_add_free (nms : list string) (w : World num) :
  variables_add None (Some (times 0%Z (List.length nms)))
    (Some (times ub_inf (List.length nms))) nms w =
  (Ok tt,
   mk_World
     (mk_Cplex (objective_sense (problem w))
        (variables (problem w) ++ map free_var nms)
        (linear_constraints (problem w)) (objective_linear (problem w)))
     (stdout w)).
Proof.
  unfold variables_add, given.
  replace (List.length (times 0%Z (List.length nms))) with (List.length nms)
    by (unfold times; now rewrite repeat_length).
  replace (List.length (times (@ub_inf num) (List.length nms)))
    with (List.length nms) by (unfold times; now rewrite repeat_length).
  cbn [List.length].
  rewrite !Nat.max_id, Nat.max_0_l, arg_fits_same, arg_fits_empty.
  cbn [andb]. unfold update_problem.
  rewrite (map_ext _ (fun i => mk_var (nth_error nms i) (pint 0) 0%Z ub_inf)).
  - rewrite (map_nth_error_range
               (fun o => mk_var o (pint 0) 0%Z ub_inf) nms).
    reflexivity.
  - intros i. rewrite nth_nil.
    rewrite (nth_times 0%Z (List.length nms) i).
    rewrite (nth_times ub_inf (List.length nms) i). reflexivity.
Qed.

Lemma length_xy_names (n : nat) :
  List.length (x_names n ++ y_names n) = 2 * n.
Proof.
  unfold x_names, y_names, range.
  rewrite length_app, !length_map, !length_seq. lia.
Qed.

Lemma bind_Ok {A B : Type} (m : M num A) (k : A -> M num B)
    (w w' : World num) (a : A) :
  m w = (Ok a, w') -> bind m k w = k a w'.
Proof. intros Hm. unfold bind. rewrite Hm. reflexivity. Qed.

Lemma bind_Raise {A B : Type} (m : M num A) (k : A -> M num B)
    (w : World num) (e : exn) :
  fst (m w) = Raise e -> fst (bind m k w) = Raise e.
Proof.
  intros Hm. unfold bind. destruct (m w) as [[a | e'] w']; simpl in *.
  - discriminate.
  - injection Hm as ->. reflexivity.
Qed.

Lemma bind_Raise_at {A B : Type} (m : M num A) (k : A -> M num B)
    (w w' : World num) (e : exn) :
  m w = (Raise e, w') -> bind m k w = (Raise e, w').
Proof. intros Hm. unfold bind. rewrite Hm. reflexivity. Qed.

(** The world in which the loops of [assign_model] start. *)
Lemma assign_model_variables (circles : list (circle num))
    (flows : list (list num)) (n : nat) (out : list string) :
  assign_model circles flows n (fresh_world out) =
  (for_each (enumerate circles) (circle_body (x_names n) (y_names n)) ;;
   objective_terms <-
     eval (comprehension (objective_term (d_names n) flows)
             (enumerate (pairs n))) ;;
   objective_set_linear objective_terms ;;
   for_each (enumerate (pairs n))
     (aux_body (x_names n) (y_names n) (d_names n)))
    (mk_World (mk_Cplex minimize (spec_variables n) [] []) out).
Proof.
  unfold assign_model.
  rewrite <- (length_xy_names n).
  erewrite bind_Ok by reflexivity.
  erewrite bind_Ok by apply variables_add_free.
  erewrite bind_Ok by apply variables_add_free.
  unfold spec_variables. simpl.
  rewrite d_names_ordered. reflexivity.
Qed.

Lemma spec_objective_names (flows : list (list num)) (n : nat) :
  map fst (spec_objective flows n) = d_names n.
Proof.
  unfold spec_objective. rewrite map_map, d_names_ordered. reflexivity.
Qed.

(** The three ways the builder can end.  An out-of-range access comes
    first; otherwise [set_linear] either refuses the terms, from [n = 12]
    on, after the circle rows and before any auxiliary row, or the model of
    the specification is left. *)
Lemma assign_model_run (circles : list (circle num))
    (flows : list (list num)) (n : nat) (out : list string) :
  if (List.length circles <=? n) && flows_cover flows n
  then assign_model circles flows n (fresh_world out) =
       if 12 <=? n
       then (Raise (CplexError duplicate_entries),
             mk_World (circle_model circles n) out)
       else (Ok tt, mk_World (spec_model circles flows n) out)
  else fst (assign_model circles flows n (fresh_world out)) =
       Raise IndexError.
Proof.
  rewrite assign_model_variables.
  set (w0 := mk_World (mk_Cplex minimize (spec_variables n) [] []) out).
  pose proof (circle_loop circles n w0) as Hc.
  destruct (List.length circles <=? n); simpl andb.
  - pose proof (objective_terms_run flows n) as Ho.
    destruct (flows_cover flows n).
    + erewrite bind_Ok by exact Hc.
      erewrite bind_Ok by (unfold eval; rewrite Ho; reflexivity).
      unfold objective_set_linear.
      rewrite spec_objective_names, has_dup_d_names.
      destruct (12 <=? n).
      * apply bind_Raise_at. reflexivity.
      * erewrite bind_Ok by reflexivity.
        rewrite aux_loop. reflexivity.
    + erewrite bind_Ok by exact Hc.
      apply bind_Raise. unfold eval. rewrite Ho. reflexivity.
  - apply bind_Raise. exact Hc.
Qed.

Lemma matching_accepted (circles : list (circle num))
    (flows : list (list num)) (n : nat) :
  matching circles flows n ->
  (List.length circles <=? n) && flows_cover flows n = true.
Proof.
  intros [Hc [Hf Hrows]]. apply andb_true_intro. split.
  - apply Nat.leb_le. lia.
  - unfold flows_cover. apply forallb_forall. intros [i j] Hin.
    apply in_ordered_pairs in Hin. destruct Hin as [Hi [Hj _]].
    unfold has_flow. simpl.
    destruct (nth_error flows i) as [row |] eqn:Ei.
    + rewrite Forall_forall in Hrows.
      rewrite (Hrows row (nth_error_In _ _ Ei)).
      apply Nat.ltb_lt. exact Hj.
    + apply nth_error_None in Ei. lia.
Qed.

(** Up to [n = 11] a matching input gives the model of the specification. *)
Lemma assign_model_built (circles : list (circle num))
    (flows : list (list num)) (n : nat) (out : list string) :
  n <= 11 -> matching circles flows n ->
  assign_model circles flows n (fresh_world out) =
  (Ok tt, mk_World (spec_model circles flows n) out).
Proof.
  intros Hn Hm. pose proof (assign_model_run circles flows n out) as Hrun.
  rewrite (matching_accepted circles flows n Hm) in Hrun.
  replace (12 <=? n) with false in Hrun
    by (symmetry; apply Nat.leb_gt; lia).
  exact Hrun.
Qed.

(** From [n = 12] on a matching input stops at [set_linear]. *)
Lemma assign_model_stops (circles : list (circle num))
    (flows : list (list num)) (n : nat) (out : list string) :
  12 <= n -> matching circles flows n ->
  assign_model circles flows n (fresh_world out) =
  (Raise (CplexError duplicate_entries),
   mk_World (circle_model circles n) out).
Proof.
  intros Hn Hm. pose proof (assign_model_run circles flows n out) as Hrun.
  rewrite (matching_accepted circles flows n Hm) in Hrun.
  replace (12 <=? n) with true in Hrun
    by (symmetry; apply Nat.leb_le; lia).
  exact Hrun.
Qed.

(** A run that completes has left the model of the specification, for at
    most eleven facilities, whatever was on the console. *)
Lemma assign_model_completed (circles : list (circle num))
    (flows : list (list num)) (n : nat) (out out' : list string) :
  fst (assign_model circles flows n (fresh_world out)) = Ok tt ->
  n <= 11 /\
  assign_model circles flows n (fresh_world out') =
  (Ok tt, mk_World (spec_model circles flows n) out').
Proof.
  intros Hok.
  pose proof (assign_model_run circles flows n out) as Hrun.
  pose proof (assign_model_run circles flows n out') as Hrun'.
  destruct ((List.length circles <=? n) && flows_cover flows n).
  - destruct (Nat.leb_spec 12 n) as [Hn | Hn].
    + rewrite Hrun in Hok. discriminate.
    + split; [lia | exact Hrun'].
  - rewrite Hrun in Hok. discriminate.
Qed.

End AssignRun.

(** ** The model the assignment builder leaves *)

Section AssignModel.
Context {num : Type} `{PyNum num} {TXT : Texts}.

(** X19.  Up to [n = 11], for every input with matching dimensions the
    builder succeeds and the rows it has added are, in order, the four
    circle rows of every facility [i] with its circle [(a, b, r)], that is
    [x_i + y_i <= a + r], [-(x_i + y_i) <= r - a], [x_i - y_i <= b + r],
    [-(x_i - y_i) <= r - b], followed by the two auxiliary rows
    [2(x_i - x_j) + 2(y_i - y_j) - d_ij <= 0] and
    [-2(x_i - x_j) - 2(y_i - y_j) - d_ij <= 0] of every ordered pair, all of
    sense "L", and nothing else; the facilities are the positions of
    [circles] and the ordered pairs are exactly the [(i, j)] with
    [i, j < n] and [i <> j], each once. *)
Theorem assign_constraints_le_11 (circles : list (circle num))
    (flows : list (list num)) (n : nat) (out : list string) :
  n <= 11 -> matching circles flows n ->
  fst (assign_model circles flows n (fresh_world out)) = Ok tt /\
  linear_constraints
    (problem (snd (assign_model circles flows n (fresh_world out)))) =
    flat_map spec_circle_rows (enumerate circles)
    ++ flat_map spec_aux_rows (ordered_pairs n) /\
  (forall i c, In (i, c) (enumerate circles) <-> nth_error circles i = Some c) /\
  (forall i j, In (i, j) (ordered_pairs n) <-> i < n /\ j < n /\ i <> j) /\
  NoDup (ordered_pairs n).
Proof.
  intros Hn Hm. rewrite (assign_model_built circles flows n out Hn Hm).
  split; [reflexivity |]. split; [reflexivity |].
  split; [| split].
  - intros i c. split; [apply in_enumerate | apply enumerate_In].
  - intros i j. apply in_ordered_pairs.
  - apply NoDup_ordered_pairs.
Qed.

Lemma length_spec_constraints (circles : list (circle num)) (n : nat) :
  List.length (spec_constraints circles n) =
  4 * List.length circles + 2 * (n * (n - 1)).
Proof.
  unfold spec_constraints. rewrite length_app.
  rewrite (length_flat_map_const spec_circle_rows _ 4).
  - rewrite (length_flat_map_const spec_aux_rows _ 2).
    + rewrite length_enumerate, length_ordered_pairs. lia.
    + intros [i j] _. reflexivity.
  - intros [i [[a b] r]] _. reflexivity.
Qed.

Lemma length_circle_rows (circles : list (circle num)) :
  List.length (flat_map spec_circle_rows (enumerate circles)) =
  4 * List.length circles.
Proof.
  rewrite (length_flat_map_const spec_circle_rows _ 4).
  - rewrite length_enumerate. lia.
  - intros [i [[a b] r]] _. reflexivity.
Qed.

Lemma length_spec_variables (n : nat) :
  List.length (spec_variables (num := num) n) = 2 * n + n * (n - 1).
Proof.
  unfold spec_variables.
  rewrite !length_app, !length_map, !length_app, !length_map.
  rewrite length_ordered_pairs. unfold range. rewrite !length_seq. lia.
Qed.

(** X20.  Up to [n = 11], for every input with matching dimensions the
    builder has added the [2n] position variables [x_0 .. x_(n-1)],
    [y_0 .. y_(n-1)] followed by the [n(n-1)] auxiliary variables, every one
    with lower bound 0 and upper bound infinity, and [4n + 2n(n-1)] rows. *)
Theorem assign_counts_le_11 (circles : list (circle num))
    (flows : list (list num)) (n : nat) (out : list string) :
  n <= 11 -> matching circles flows n ->
  let m := problem (snd (assign_model circles flows n (fresh_world out))) in
  fst (assign_model circles flows n (fresh_world out)) = Ok tt /\
  map var_name (variables m) =
    (map x_var (range n) ++ map y_var (range n))
    ++ map d_var (ordered_pairs n) /\
  List.length (map x_var (range n) ++ map y_var (range n)) = 2 * n /\
  List.length (map d_var (ordered_pairs n)) = n * (n - 1) /\
  Forall (fun v => var_lb v = 0%Z /\ var_ub v = ub_inf) (variables m) /\
  List.length (linear_constraints m) = 4 * n + 2 * n * (n - 1).
Proof.
  intros Hn Hm. cbv zeta.
  rewrite (assign_model_built circles flows n out Hn Hm).
  cbn [fst snd problem spec_model variables linear_constraints].
  split; [reflexivity |]. split; [| split; [| split; [| split]]].
  - unfold spec_variables. rewrite map_app, !map_map.
    unfold free_var, var_name. cbn [var_label].
    rewrite !map_id. reflexivity.
  - unfold range. rewrite length_app, !length_map, !length_seq. lia.
  - rewrite length_map. apply length_ordered_pairs.
  - unfold spec_variables. apply Forall_app. split;
      apply Forall_map, Forall_forall; intros nm _; split; reflexivity.
  - rewrite length_spec_constraints.
    destruct Hm as [-> _]. lia.
Qed.

Lemma comprehension_ext {A B : Type} (f g : A -> result B) (l : list A) :
  (forall a, In a l -> f a = g a) -> comprehension f l = comprehension g l.
Proof.
  induction l as [| a l IH]; intros Hfg; simpl.
  - reflexivity.
  - rewrite (Hfg a (or_introl eq_refl)).
    rewrite IH by (intros b Hb; apply Hfg; right; exact Hb).
    reflexivity.
Qed.

(** C9.  The builder never reads the diagonal of [flows]: two matrices
    that agree at every off-diagonal position below [n] (the same entry, or
    the same missing entry) give the same run of the builder, hence the same
    variables, rows and objective terms, whatever their diagonals are. *)
Theorem assign_ignores_diagonal (circles : list (circle num))
    (flows flows' : list (list num)) (n : nat) (out : list string) :
  (forall i j, i < n -> j < n -> i <> j ->
     flows_getitem flows i j = flows_getitem flows' i j) ->
  assign_model circles flows n (fresh_world out) =
  assign_model circles flows' n (fresh_world out).
Proof.
  intros Hoff. rewrite !assign_model_variables.
  assert (Hterms :
    comprehension (objective_term (d_names n) flows) (enumerate (pairs n)) =
    comprehension (objective_term (d_names n) flows') (enumerate (pairs n))).
  { apply comprehension_ext. intros [idx [i j]] Hin.
    apply in_enumerate, nth_error_In in Hin.
    rewrite pairs_ordered in Hin. apply in_ordered_pairs in Hin.
    unfold objective_term. rewrite (Hoff i j) by apply Hin. reflexivity. }
  rewrite Hterms. reflexivity.
Qed.

End AssignModel.

(** ** Out-of-range accesses *)

Lemma forallb_false_exists {A : Type} (p : A -> bool) (l : list A) :
  forallb p l = false <-> exists a, In a l /\ p a = false.
Proof.
  induction l as [| a l IH]; simpl.
  - split; [discriminate | intros [a [[] _]]].
  - rewrite andb_false_iff, IH. split.
    + intros [Ha | [b [Hb Hpb]]]; [exists a | exists b]; auto.
    + intros [b [[-> | Hb] Hpb]]; [left | right; exists b]; auto.
Qed.

Section IndexErrors.
Context {num : Type} `{PyNum num} {TXT : Texts}.

Lemma has_flow_false (flows : list (list num)) (i j : nat) :
  has_flow flows (i, j) = false <->
  (List.length flows <= i \/
   exists row, nth_error flows i = Some row /\ List.length row <= j).
Proof.
  unfold has_flow. simpl.
  destruct (nth_error flows i) as [row |] eqn:Ei.
  - rewrite Nat.ltb_ge. split.
    + intros Hj. right. exists row. split; [reflexivity | exact Hj].
    + intros [Hi | [row' [[= <-] Hj]]]; [| exact Hj].
      apply nth_error_None in Hi. congruence.
  - split; [| reflexivity].
    intros _. left. apply nth_error_None. exact Ei.
Qed.

(** C6, as the code has it.  The builder checks nothing.  It runs into an
    [IndexError] exactly when there are more circles than [n], or when an
    off-diagonal entry [flows[i][j]] with [i, j < n] is missing because
    [flows] has no row [i] or row [i] has no column [j]; no other mismatch
    of the dimensions surfaces as an out-of-range access. *)
Theorem assign_index_error_iff (circles : list (circle num))
    (flows : list (list num)) (n : nat) :
  index_error circles flows n <->
  n < List.length circles \/
  exists i j, i < n /\ j < n /\ i <> j /\
    (List.length flows <= i \/
     exists row, nth_error flows i = Some row /\ List.length row <= j).
Proof.
  unfold index_error.
  pose proof (assign_model_run circles flows n []) as Hrun.
  destruct (Nat.leb_spec (List.length circles) n) as [Hle | Hgt];
    simpl andb in Hrun.
  - destruct (flows_cover flows n) eqn:Hcov.
    + rewrite Hrun. split.
      * destruct (12 <=? n); discriminate.
      * intros [Hlt | [i [j [Hi [Hj [Hij Hmiss]]]]]]; [lia |].
        apply has_flow_false in Hmiss.
        unfold flows_cover in Hcov. rewrite forallb_forall in Hcov.
        rewrite Hcov in Hmiss by (apply in_ordered_pairs; auto).
        discriminate.
    + split; [| intros _; exact Hrun].
      intros _. right.
      apply forallb_false_exists in Hcov.
      destruct Hcov as [[i j] [Hin Hmiss]].
      apply in_ordered_pairs in Hin. apply has_flow_false in Hmiss.
      exists i, j. tauto.
  - split; [intros _; left; exact Hgt | intros _; exact Hrun].
Qed.

End IndexErrors.

(** Mismatched inputs that the builder accepts: one circle where [n = 2]
    asks for two, and a last row of [flows] that is one entry short. *)
Lemma assign_accepts_mismatch :
  (List.length [(0, 0, 5)%Z] <> 2 /\
   ~ index_error [(0, 0, 5)%Z] flows2 2 /\
   fst (assign_model [(0, 0, 5)%Z] flows2 2 (fresh_world [])) = Ok tt) /\
  (List.length [3%Z] < 2 /\
   ~ index_error circles2 [[0; 3]; [3]]%Z 2 /\
   fst (assign_model circles2 [[0; 3]; [3]]%Z 2 (fresh_world [])) = Ok tt).
Proof.
  split; (split; [simpl; lia |]); split;
    try (unfold index_error; vm_compute; discriminate);
    vm_compute; reflexivity.
Qed.

Section Unambiguous.
Context {num : Type} `{PyNum num} {TXT : Texts}.

Lemma circle_rows_without_d (p : nat * nat) (l : list (nat * circle num)) :
  filter (occurs (d_var p)) (flat_map spec_circle_rows l) = [].
Proof.
  induction l as [| [i [[a b] r]] l IH]; [reflexivity |].
  cbn [flat_map]. rewrite filter_app, IH, app_nil_r. reflexivity.
Qed.

Lemma aux_rows_with_d (p q : nat * nat) :
  filter (occurs (d_var p)) (spec_aux_rows q) =
  if String.eqb (d_var p) (d_var q) then spec_aux_rows q else [].
Proof.
  destruct q as [i j]. unfold spec_aux_rows, occurs.
  cbn [filter lin_expr ind existsb].
  change (String.eqb (d_var p) (x_var i)) with false.
  change (String.eqb (d_var p) (x_var j)) with false.
  change (String.eqb (d_var p) (y_var i)) with false.
  change (String.eqb (d_var p) (y_var j)) with false.
  cbn [orb]. rewrite orb_false_r.
  destruct (String.eqb (d_var p) (d_var (i, j))); reflexivity.
Qed.

(** In the model of the specification, up to [n = 11], an auxiliary
    variable occurs in the two rows of its pair and in no other row. *)
Lemma spec_model_rows_with (circles : list (circle num))
    (flows : list (list num)) (n : nat) (p : nat * nat) :
  n <= 11 -> In p (ordered_pairs n) ->
  rows_with (d_var p) (spec_model circles flows n) = spec_aux_rows p.
Proof.
  intros Hn Hp.
  unfold rows_with. cbn [spec_model linear_constraints].
  unfold spec_constraints.
  rewrite filter_app, circle_rows_without_d, app_nil_l, filter_flat_map.
  rewrite (flat_map_ext _ (fun q => if String.eqb (d_var p) (d_var q)
                                     then spec_aux_rows q else []))
    by (intros q; apply aux_rows_with_d).
  rewrite <- (app_nil_r (spec_aux_rows p)).
  change (spec_aux_rows p ++ []) with (flat_map spec_aux_rows [p]).
  rewrite <- (pairs_named n p (unambiguous_le_11 n Hn) Hp).
  generalize (ordered_pairs n). intros l.
  induction l as [| q l IH]; cbn [flat_map filter]; [reflexivity |].
  rewrite IH.
  destruct (String.eqb (d_var p) (d_var q)); reflexivity.
Qed.

(** Both rows of a pair bound its auxiliary variable from below. *)
Lemma spec_aux_rows_lower (p : nat * nat) :
  Forall (fun c => coefficients (d_var p) c = [(-1)%Z] /\
                   senses c = sense_L /\ rhs c = pint (num := num) 0)
    (spec_aux_rows p).
Proof.
  destruct p as [i j]. unfold spec_aux_rows.
  assert (Hcoef : forall nm c1 c2 c3 c4 c5,
            coefficients (d_var (i, j))
              (mk_lincon
                 (mk_SparsePair
                    [x_var i; x_var j; y_var i; y_var j; d_var (i, j)]
                    [c1; c2; c3; c4; c5])
                 sense_L (pint (num := num) 0) nm) = [c5]).
  { intros nm c1 c2 c3 c4 c5. unfold coefficients.
    cbn [lin_expr ind val combine filter fst].
    change (String.eqb (d_var (i, j)) (x_var i)) with false.
    change (String.eqb (d_var (i, j)) (x_var j)) with false.
    change (String.eqb (d_var (i, j)) (y_var i)) with false.
    change (String.eqb (d_var (i, j)) (y_var j)) with false.
    cbv iota. rewrite String.eqb_refl. reflexivity. }
  repeat constructor; apply Hcoef.
Qed.

(** X18.  Up to [n = 11], where every name belongs to one pair, each
    auxiliary variable occurs in the two rows of its pair and in no other
    row, with coefficient -1, sense "L" and right-hand side 0 in both. *)
Lemma assign_aux_rows_le_11 (circles : list (circle num))
    (flows : list (list num)) (n : nat) (p : nat * nat) :
  n <= 11 -> matching circles flows n -> In p (ordered_pairs n) ->
  rows_with (d_var p)
    (problem (snd (assign_model circles flows n (fresh_world [])))) =
  spec_aux_rows p /\
  Forall (fun c => coefficients (d_var p) c = [(-1)%Z] /\
                   senses c = sense_L /\ rhs c = pint 0)
    (spec_aux_rows p).
Proof.
  intros Hn Hm Hp. rewrite (assign_model_built circles flows n [] Hn Hm).
  split.
  - apply spec_model_rows_with; assumption.
  - apply spec_aux_rows_lower.
Qed.

(** C4.  Whenever the builder completes, each auxiliary variable [d_ij]
    occurs in exactly two rows of the model, the two of its pair; in both
    it has coefficient -1, the sense is "L" and the right-hand side is 0, so
    both bound it from below; and no variable has a finite upper bound. *)
Theorem assign_aux_rows_built (circles : list (circle num))
    (flows : list (list num)) (n : nat) (p : nat * nat) :
  fst (assign_model circles flows n (fresh_world [])) = Ok tt ->
  In p (ordered_pairs n) ->
  let m := problem (snd (assign_model circles flows n (fresh_world []))) in
  rows_with (d_var p) m = spec_aux_rows p /\
  List.length (rows_with (d_var p) m) = 2 /\
  Forall (fun c => coefficients (d_var p) c = [(-1)%Z] /\
                   senses c = sense_L /\ rhs c = pint 0)
    (rows_with (d_var p) m) /\
  Forall (fun v => var_ub v = ub_inf) (variables m).
Proof.
  intros Hok Hp. cbv zeta.
  destruct (assign_model_completed circles flows n [] [] Hok) as [Hn Hrun].
  rewrite Hrun. cbn [snd problem].
  rewrite (spec_model_rows_with circles flows n p Hn Hp).
  split; [reflexivity |]. split; [destruct p; reflexivity |].
  split; [apply spec_aux_rows_lower |].
  cbn [spec_model variables]. unfold spec_variables.
  apply Forall_app.
  split; apply Forall_map, Forall_forall; intros nm _; reflexivity.
Qed.

(** X24.  Up to [n = 11] the objective terms handed to [set_linear] are, in
    order, one term [(d_ij, flows[i][j])] per ordered pair; no term names a
    position variable, every variable was added without an objective
    coefficient, and the sense is minimize. *)
Theorem assign_objective_terms (circles : list (circle num))
    (flows : list (list num)) (n : nat) :
  n <= 11 -> matching circles flows n ->
  let m := problem (snd (assign_model circles flows n (fresh_world []))) in
  objective_sense m = minimize /\
  objective_linear m =
    map (fun p => (d_var p, flow_at flows p)) (ordered_pairs n) /\
  Forall (fun v => var_obj v = pint 0) (variables m) /\
  (forall i, objective_values (x_var i) m = [] /\
             objective_values (y_var i) m = []).
Proof.
  intros Hn Hm. cbv zeta.
  rewrite (assign_model_built circles flows n [] Hn Hm).
  cbn [snd problem spec_model objective_sense objective_linear variables].
  split; [reflexivity |]. split; [reflexivity |]. split.
  - unfold spec_variables. apply Forall_app.
    split; apply Forall_map, Forall_forall; intros nm _; reflexivity.
  - intros i. unfold objective_values, spec_model, spec_objective.
    cbn [objective_linear]. generalize (ordered_pairs n). intros l.
    split.
    + induction l as [| q l IH]; [reflexivity |].
      cbn [map filter fst].
      change (String.eqb (x_var i) (d_var q)) with false. exact IH.
    + induction l as [| q l IH]; [reflexivity |].
      cbn [map filter fst].
      change (String.eqb (y_var i) (d_var q)) with false. exact IH.
Qed.

(** X17.  Up to [n = 11] the coefficient set on each auxiliary variable is
    the flow of its pair, and nothing else is set on it. *)
Lemma assign_objective_le_11 (circles : list (circle num))
    (flows : list (list num)) (n : nat) (p : nat * nat) :
  n <= 11 -> matching circles flows n -> In p (ordered_pairs n) ->
  objective_values (d_var p)
    (problem (snd (assign_model circles flows n (fresh_world [])))) =
  [flow_at flows p].
Proof.
  intros Hn Hm Hp. rewrite (assign_model_built circles flows n [] Hn Hm).
  unfold objective_values.
  cbn [snd problem spec_model objective_linear]. unfold spec_objective.
  transitivity
    (map (flow_at flows)
       (filter (fun q => String.eqb (d_var p) (d_var q)) (ordered_pairs n))).
  - generalize (ordered_pairs n). intros l.
    induction l as [| q l IH]; cbn [map filter fst]; [reflexivity |].
    destruct (String.eqb (d_var p) (d_var q)); cbn [map snd]; rewrite IH;
      reflexivity.
  - rewrite (pairs_named n p (unambiguous_le_11 n Hn) Hp). reflexivity.
Qed.

End Unambiguous.

(** ** What the shared name does to the builder at [n = 12] *)

Section Twelve.
Context {TXT : Texts}.

Lemma matching_12 : matching circles12 flows12 12.
Proof.
  split; [reflexivity |]. split; [reflexivity |].
  unfold flows12. apply Forall_map, Forall_forall. intros i _.
  rewrite length_map. reflexivity.
Qed.

Lemma assign_model_12 (out : list string) :
  assign_model circles12 flows12 12 (fresh_world out) =
  (Raise (CplexError duplicate_entries),
   mk_World (circle_model circles12 12) out).
Proof.
  apply assign_model_stops; [lia | apply matching_12].
Qed.

(** C1 at [n = 12].  On a matching input the pairs [(1, 10)] and [(11, 0)]
    have one name, [set_linear] refuses the objective terms, and the builder
    stops with the 48 circle rows and not one of the 264 auxiliary rows. *)
Theorem assign_constraints_stop_12 :
  matching circles12 flows12 12 /\
  fst (assign_model circles12 flows12 12 (fresh_world [])) =
    Raise (CplexError duplicate_entries) /\
  linear_constraints
    (problem (snd (assign_model circles12 flows12 12 (fresh_world [])))) =
    flat_map spec_circle_rows (enumerate circles12) /\
  List.length (flat_map (spec_aux_rows (num := Z)) (ordered_pairs 12)) = 264 /\
  forall p, In p (ordered_pairs 12) ->
    rows_with (d_var p)
      (problem (snd (assign_model circles12 flows12 12 (fresh_world [])))) =
    [].
Proof.
  rewrite assign_model_12. cbn [fst snd problem circle_model linear_constraints].
  split; [apply matching_12 |]. split; [reflexivity |].
  split; [reflexivity |]. split; [vm_compute; reflexivity |].
  intros p _. unfold rows_with. cbn [linear_constraints].
  apply circle_rows_without_d.
Qed.

(** C2 at [n = 12].  On the same input the builder stops with an exception
    after adding the 24 + 132 variables and 48 rows, where the claim counts
    [4 * 12 + 2 * 12 * 11 = 312]. *)
Theorem assign_counts_stop_12 :
  matching circles12 flows12 12 /\
  fst (assign_model circles12 flows12 12 (fresh_world [])) =
    Raise (CplexError duplicate_entries) /\
  List.length
    (variables
       (problem (snd (assign_model circles12 flows12 12 (fresh_world [])))))
    = 2 * 12 + 12 * 11 /\
  List.length
    (linear_constraints
       (problem (snd (assign_model circles12 flows12 12 (fresh_world [])))))
    = 48 /\
  4 * 12 + 2 * 12 * (12 - 1) = 312.
Proof.
  rewrite assign_model_12. cbn [fst snd problem circle_model
                               variables linear_constraints].
  split; [apply matching_12 |]. split; [reflexivity |].
  split; [apply (length_spec_variables (num := Z)) |].
  split; [apply (length_circle_rows circles12) | reflexivity].
Qed.

(** C3 at [n = 12].  On the same input [flows[1][10] = 22] and
    [flows[11][0] = 132] are both meant for the name [d110]; [set_linear]
    refuses the terms and no objective coefficient is set at all. *)
Theorem assign_objective_stop_12 :
  matching circles12 flows12 12 /\
  fst (assign_model circles12 flows12 12 (fresh_world [])) =
    Raise (CplexError duplicate_entries) /\
  d_var (1, 10) = d_var (11, 0) /\
  flows_getitem flows12 1 10 = Ok 22%Z /\
  flows_getitem flows12 11 0 = Ok 132%Z /\
  objective_linear
    (problem (snd (assign_model circles12 flows12 12 (fresh_world [])))) = [] /\
  forall p,
    objective_values (d_var p)
      (problem (snd (assign_model circles12 flows12 12 (fresh_world [])))) =
    [].
Proof.
  rewrite assign_model_12. cbn [fst snd problem circle_model objective_linear].
  split; [apply matching_12 |].
  repeat split.
Qed.

End Twelve.

(** ** The data generator of [transport.py] *)

Section GenerateDataFacts.
Context {rng : Type} {RNG : Random rng}.
Local Open Scope Z_scope.

Lemma fold_left_add (l : list Z) (a : Z) :
  fold_left Z.add l a = a + sum l.
Proof.
  unfold sum. revert a. induction l as [| v l IH]; intros a; simpl.
  - lia.
  - rewrite IH, (IH v). lia.
Qed.

Lemma sum_cons (v : Z) (l : list Z) : sum (v :: l) = v + sum l.
Proof. unfold sum at 1. simpl. apply fold_left_add. Qed.

Lemma sum_app (l l' : list Z) : sum (l ++ l') = sum l + sum l'.
Proof.
  unfold sum at 1. rewrite fold_left_app. fold (sum l). apply fold_left_add.
Qed.

Lemma sum_lower (a : Z) (l : list Z) :
  Forall (fun v => a <= v) l -> a * Z.of_nat (List.length l) <= sum l.
Proof.
  induction 1 as [| v l Hv _ IH].
  - unfold sum. simpl. lia.
  - rewrite sum_cons. cbn [List.length]. lia.
Qed.

(** A comprehension of draws either raises, or gives as many values as it
    has rounds. *)
Lemma randints_length (k : nat) (a : Z) (hi : result Z) (g g' : rng)
    (vs : list Z) :
  randints k a hi g = Ok (vs, g') -> List.length vs = k.
Proof.
  revert g g' vs. induction k as [| k IH]; intros g g' vs; simpl.
  - intros [= <- _]. reflexivity.
  - destruct hi as [b | e]; [| discriminate].
    destruct (randint g a b) as [[v g1] | e]; [| discriminate].
    destruct (randints k a (Ok b) g1) as [[vs' g2] | e] eqn:E; [| discriminate].
    intros [= <- _]. simpl. f_equal. apply (IH g1 g2 vs'). exact E.
Qed.

(** The only exception a comprehension of draws with a computed bound can
    raise is the [ValueError] of an empty range. *)
Lemma randints_Raise (k : nat) (a b : Z) (g : rng) (e : exn) :
  randints k a (Ok b) g = Raise e -> e = ValueError /\ b < a.
Proof.
  revert g. induction k as [| k IH]; intros g; simpl.
  - discriminate.
  - unfold randint. destruct (Z.leb_spec a b) as [Hab | Hab].
    + destruct (randint_draw g a b) as [v g1].
      specialize (IH g1).
      destruct (randints k a (Ok b) g1) as [[vs g2] | e'].
      * discriminate.
      * intros [= <-]. apply IH. reflexivity.
    + intros [= <-]. split; [reflexivity | exact Hab].
Qed.

(** What [random.randint] promises: a value within the range asked for. *)
Hypothesis randint_in_range :
  forall g a b, a <= b -> a <= fst (randint_draw g a b) <= b.

(** With a non-empty range every round draws a value within it. *)
Lemma randints_Ok (k : nat) (a b : Z) (g : rng) :
  a <= b ->
  exists vs g', randints k a (Ok b) g = Ok (vs, g') /\
                Forall (fun v => a <= v <= b) vs.
Proof.
  intros Hab. revert g. induction k as [| k IH]; intros g; simpl.
  - exists [], g. split; [reflexivity | constructor].
  - unfold randint. destruct (Z.leb_spec a b) as [_ | Hlt]; [| lia].
    pose proof (randint_in_range g a b Hab) as Hv.
    destruct (randint_draw g a b) as [v g1]. simpl in Hv.
    destruct (IH g1) as [vs [g2 [E Hvs]]]. rewrite E.
    exists (v :: vs), g2. split; [reflexivity | constructor; assumption].
Qed.

(** For at least one source and one destination the generator either
    raises the [ValueError] of an empty [randint] range, or returns lists of
    the lengths asked for whose sums are equal. *)
Lemma generate_data_total (num_sources num_destinations : nat)
    (supply_range cost_range : Z * Z) (g : rng) :
  (1 <= num_sources)%nat -> (1 <= num_destinations)%nat ->
  match generate_data num_sources num_destinations supply_range cost_range g
  with
  | Ok (supply, demand, costs, _) =>
      sum demand = sum supply /\
      List.length supply = num_sources /\
      List.length demand = num_destinations /\
      last demand 0 = sum supply - sum (removelast demand)
  | Raise e => e = ValueError
  end.
Proof.
  intros Hs Hd. unfold generate_data.
  destruct (randints num_sources _ _ g) as [[supply g1] | e] eqn:E1.
  - destruct (randints (num_destinations - 1) 1 _ g1)
      as [[demand0 g2] | e] eqn:E2.
    + destruct (randints (num_sources * num_destinations) _ _ g2)
        as [[costs g3] | e] eqn:E3.
      * apply randints_length in E1. apply randints_length in E2.
        repeat split.
        -- rewrite sum_app, sum_cons.
           change (sum []) with 0. lia.
        -- exact E1.
        -- rewrite length_app, E2. simpl. lia.
        -- rewrite last_last, removelast_last. reflexivity.
      * apply randints_Raise in E3. apply E3.
    + unfold floordiv in E2.
      destruct (Z.eqb_spec (Z.of_nat num_destinations) 0) as [Hz | _];
        [lia |].
      apply randints_Raise in E2. apply E2.
  - apply randints_Raise in E1. apply E1.
Qed.

(** The generator does return when its ranges are not empty and the least
    possible total supply gives every destination at least one unit. *)
Lemma generate_data_returns (num_sources num_destinations : nat)
    (supply_range cost_range : Z * Z) (g : rng) :
  (1 <= num_destinations)%nat ->
  fst supply_range <= snd supply_range ->
  fst cost_range <= snd cost_range ->
  Z.of_nat num_destinations <= fst supply_range * Z.of_nat num_sources ->
  exists supply demand costs g',
    generate_data num_sources num_destinations supply_range cost_range g =
    Ok (supply, demand, costs, g').
Proof.
  intros Hd Hsr Hcr Htot. unfold generate_data.
  destruct (randints_Ok num_sources _ _ g Hsr) as [supply [g1 [E1 Hsup]]].
  rewrite E1.
  assert (Hlow : Z.of_nat num_destinations <= sum supply).
  { pose proof (randints_length _ _ _ _ _ _ E1) as Hlen.
    pose proof (sum_lower (fst supply_range) supply) as Hsum.
    rewrite Hlen in Hsum. etransitivity; [exact Htot |].
    apply Hsum. eapply Forall_impl; [| exact Hsup]. simpl. intros v Hv. lia. }
  unfold floordiv.
  destruct (Z.eqb_spec (Z.of_nat num_destinations) 0) as [Hz | _]; [lia |].
  assert (Hone : 1 <= sum supply / Z.of_nat num_destinations).
  { apply Z.div_le_lower_bound; lia. }
  destruct (randints_Ok (num_destinations - 1) _ _ g1 Hone)
    as [demand0 [g2 [E2 _]]].
  rewrite E2.
  destruct (randints_Ok (num_sources * num_destinations) _ _ g2 Hcr)
    as [costs [g3 [E3 _]]].
  rewrite E3. eauto.
Qed.

(** C10.  For at least one source and one destination the generator either
    raises the [ValueError] of an empty [randint] range, or returns
    [num_sources] supplies and [num_destinations] demands whose sums are
    equal, the last demand being total supply less the demands before it;
    and it does return such data when its ranges are not empty and the least
    possible total supply gives every destination at least one unit. *)
Theorem generate_data_balanced (num_sources num_destinations : nat)
    (supply_range cost_range : Z * Z) (g : rng) :
  (1 <= num_sources)%nat -> (1 <= num_destinations)%nat ->
  match generate_data num_sources num_destinations supply_range cost_range g
  with
  | Ok (supply, demand, costs, _) =>
      sum demand = sum supply /\
      List.length supply = num_sources /\
      List.length demand = num_destinations /\
      last demand 0 = sum supply - sum (removelast demand)
  | Raise e => e = ValueError
  end /\
  (fst supply_range <= snd supply_range ->
   fst cost_range <= snd cost_range ->
   Z.of_nat num_destinations <= fst supply_range * Z.of_nat num_sources ->
   exists supply demand costs g',
     generate_data num_sources num_destinations supply_range cost_range g =
     Ok (supply, demand, costs, g') /\
     sum demand = sum supply /\
     List.length supply = num_sources /\
     List.length demand = num_destinations).
Proof.
  intros Hs Hd.
  pose proof (generate_data_total num_sources num_destinations supply_range
                cost_range g Hs Hd) as Htot.
  split; [exact Htot |].
  intros Hsr Hcr Hlow.
  destruct (generate_data_returns num_sources num_destinations supply_range
              cost_range g Hd Hsr Hcr Hlow)
    as [supply [demand [costs [g' E]]]].
  rewrite E in Htot. exists supply, demand, costs, g'.
  split; [exact E |]. tauto.
Qed.

End GenerateDataFacts.

Lemma lcg_draw_range (g a b : Z) :
  (a <= b)%Z -> (a <= fst (lcg_draw g a b) <= b)%Z.
Proof.
  intros Hab. unfold lcg_draw. simpl.
  pose proof (Z.mod_pos_bound g (b - a + 1)) as Hm. lia.
Qed.

(** The sweep of the script, sizes 2 to 199 with supplies in 50..100 and
    costs in 1..20, always gets its data under the congruential source. *)
Lemma generate_data_returns_sweep (size : nat) (g : Z) :
  2 <= size < 200 ->
  exists supply demand costs g',
    generate_data size size (50, 100)%Z (1, 20)%Z g =
    Ok (supply, demand, costs, g').
Proof.
  intros Hsize.
  apply (generate_data_returns (RNG := lcg) lcg_draw_range);
    cbn [fst snd]; lia.
Qed.

(** ** The transportation builder *)

Lemma flat_map_singleton {A B : Type} (f : A -> B) (l : list A) :
  flat_map (fun a => [f a]) l = map f l.
Proof.
  induction l as [| a l IH]; simpl; [reflexivity | rewrite IH; reflexivity].
Qed.

Section TransportRun.
Context {num : Type} {NUM : PyNum num} {TXT : Texts}.

Lemma quiet_bind (m : M num unit) (k : M num unit) :
  quiet m -> quiet k -> quiet (m ;; k).
Proof.
  intros Hm Hk w. unfold bind.
  destruct (Hm w) as [p Ep]. rewrite Ep.
  destruct (Hk (mk_World p (stdout w))) as [p' Ep']. rewrite Ep'.
  exists p'. reflexivity.
Qed.

Lemma quiet_update_problem (f : Cplex num -> Cplex num) :
  quiet (update_problem f).
Proof. intros w. exists (f (problem w)). reflexivity. Qed.

Lemma quiet_for_each {A : Type} (body : A -> M num unit) (l : list A) :
  (forall a, In a l -> quiet (body a)) -> quiet (for_each l body).
Proof.
  induction l as [| a l IH]; intros Hbody; simpl.
  - intros w. exists (problem w). destruct w. reflexivity.
  - apply quiet_bind.
    + apply Hbody. left. reflexivity.
    + apply IH. intros b Hb. apply Hbody. right. exact Hb.
Qed.

Lemma length_shipment_names (supply demand : list num) :
  List.length (shipment_names supply demand) =
  List.length supply * List.length demand.
Proof.
  unfold shipment_names.
  rewrite (length_flat_map_const _ _ (List.length demand)).
  - unfold range. rewrite length_seq. reflexivity.
  - intros i _. unfold range. rewrite length_map, length_seq. reflexivity.
Qed.

Lemma quiet_row_of (l : list num) (i : nat) (e : SparsePair) (s : sense) :
  i < List.length l ->
  quiet (v <- eval (getitem l i) ;; linear_constraints_add e s v None).
Proof.
  intros Hi w. unfold bind, eval.
  destruct (getitem_cases l i) as [[_ [a Ea]] | [Hge _]]; [| lia].
  rewrite Ea. apply quiet_update_problem.
Qed.

Lemma supply_body_row (supply demand : list num) (i : nat) (w : World num) :
  i < List.length supply ->
  supply_body supply demand i w =
  (Ok tt, add_rows [supply_row supply demand i] w).
Proof.
  intros Hi. unfold supply_body, bind, eval.
  destruct (nth_error supply i) as [s |] eqn:E.
  - rewrite (getitem_Ok supply i s E).
    unfold supply_row. rewrite (nth_error_nth supply i _ E). reflexivity.
  - apply nth_error_None in E. lia.
Qed.

Lemma demand_body_row (supply demand : list num) (j : nat) (w : World num) :
  j < List.length demand ->
  demand_body supply demand j w =
  (Ok tt, add_rows [demand_row supply demand j] w).
Proof.
  intros Hj. unfold demand_body, bind, eval.
  destruct (nth_error demand j) as [d |] eqn:E.
  - rewrite (getitem_Ok demand j d E).
    unfold demand_row. rewrite (nth_error_nth demand j _ E). reflexivity.
  - apply nth_error_None in E. lia.
Qed.

Lemma for_each_all_rows {A : Type} (body : A -> M num unit)
    (row : A -> lincon num) (l : list A) (w : World num) :
  (forall a, In a l -> forall w', body a w' = (Ok tt, add_rows [row a] w')) ->
  for_each l body w = (Ok tt, add_rows (map row l) w).
Proof.
  intros Hbody.
  pose proof (for_each_rows body (fun a => [row a]) (fun _ => true)
                IndexError l) as Hloop.
  assert (Hall : forallb (fun _ : A => true) l = true)
    by (apply forallb_forall; reflexivity).
  rewrite Hall in Hloop. rewrite Hloop.
  - rewrite flat_map_singleton. reflexivity.
  - intros a Ha _. apply Hbody. exact Ha.
  - intros a _ Hfalse. discriminate.
Qed.

Lemma enumerate_nth_error {A B : Type} (f : nat -> option A -> B)
    (l : list A) :
  map (fun k => f k (nth_error l k)) (range (List.length l)) =
  map (fun t => f (fst t) (Some (snd t))) (enumerate l).
Proof.
  unfold range, enumerate.
  enough (Hgen : forall s,
            map (fun k => f (s + k) (nth_error l k)) (seq 0 (List.length l)) =
            map (fun t => f (fst t) (Some (snd t)))
              (combine (seq s (List.length l)) l)).
  { rewrite <- (Hgen 0). reflexivity. }
  induction l as [| a l IH]; intros s0; [reflexivity |].
  cbn [List.length seq map combine nth_error fst snd].
  rewrite Nat.add_0_r. f_equal.
  rewrite <- seq_shift, map_map, <- (IH (S s0)).
  apply map_ext. intros k. rewrite Nat.add_succ_r. reflexivity.
Qed.

(** The call of [variables.add] in the transportation builder: it is
    refused exactly when [costs_refused] says so, and otherwise adds the
    columns of [transport_columns]. *)
Lemma variables_add_costs (supply demand costs : list num) (w : World num) :
  variables_add (Some costs)
    (Some (times 0%Z (List.length (shipment_names supply demand)))) None
    (shipment_names supply demand) w =
  if costs_refused supply demand costs
  then (Raise (CplexError inconsistent_arguments), w)
  else (Ok tt,
        mk_World
          (mk_Cplex (objective_sense (problem w))
             (variables (problem w) ++ transport_columns supply demand costs)
             (linear_constraints (problem w))
             (objective_linear (problem w)))
          (stdout w)).
Proof.
  unfold variables_add, given.
  replace (List.length
             (times 0%Z (List.length (shipment_names supply demand))))
    with (List.length (shipment_names supply demand))
    by (unfold times; now rewrite repeat_length).
  rewrite length_shipment_names. cbn [List.length].
  rewrite Nat.max_0_l, Nat.max_id.
  unfold costs_refused, transport_columns, arg_fits.
  set (c := List.length costs).
  set (k := List.length supply * List.length demand).
  assert (Hcond :
    ((c =? 0) || (c =? Nat.max c k)) && ((k =? 0) || (k =? Nat.max c k))
    && ((0 =? 0) || (0 =? Nat.max c k)) && ((k =? 0) || (k =? Nat.max c k)) =
    negb (negb (c =? 0) && negb (k =? 0) && negb (c =? k))).
  { destruct (Nat.eqb_spec c 0), (Nat.eqb_spec k 0), (Nat.eqb_spec c k),
      (Nat.eqb_spec c (Nat.max c k)), (Nat.eqb_spec k (Nat.max c k));
      cbn; try reflexivity; lia. }
  rewrite Hcond.
  destruct (negb (c =? 0) && negb (k =? 0) && negb (c =? k));
    cbn [negb]; [reflexivity |].
  unfold update_problem. do 4 f_equal.
  apply map_ext. intros i.
  rewrite nth_nil, (nth_times 0%Z). reflexivity.
Qed.

(** The two ways the transportation builder can end. *)
Lemma transport_model_cases (supply demand costs : list num)
    (out : list string) :
  transport_model supply demand costs (fresh_world out) =
  if costs_refused supply demand costs
  then (Raise (CplexError inconsistent_arguments),
        mk_World empty_problem out)
  else (Ok tt, mk_World (transport_any supply demand costs) out).
Proof.
  unfold transport_model.
  erewrite bind_Ok by reflexivity.
  pose proof (variables_add_costs supply demand costs) as Hadd.
  destruct (costs_refused supply demand costs).
  - unfold bind. rewrite Hadd. reflexivity.
  - erewrite bind_Ok by apply Hadd.
    erewrite bind_Ok.
    2:{ apply for_each_all_rows. intros i Hi w'. apply supply_body_row.
        unfold range in Hi. apply in_seq in Hi. lia. }
    rewrite (for_each_all_rows _ (demand_row supply demand)).
    2:{ intros j Hj w'. apply demand_body_row.
        unfold range in Hj. apply in_seq in Hj. lia. }
    unfold add_rows, fresh_world, empty_problem, transport_any,
      transport_rows. simpl. reflexivity.
Qed.

(** With one cost per shipment variable nothing is refused and every column
    has its name. *)
Lemma transport_any_spec (supply demand costs : list num) :
  List.length costs = List.length supply * List.length demand ->
  costs_refused supply demand costs = false /\
  transport_any supply demand costs = transport_spec supply demand costs.
Proof.
  intros Hc. split.
  - unfold costs_refused. rewrite Hc, Nat.eqb_refl.
    cbn [negb]. apply andb_false_r.
  - unfold transport_any, transport_spec. f_equal.
    unfold transport_columns, transport_variables.
    rewrite Hc, Nat.max_id, <- length_shipment_names.
    apply (enumerate_nth_error
             (fun k o => mk_var o (nth k costs (pint 0)) 0%Z ub_inf)).
Qed.

Lemma transport_model_built (supply demand costs : list num)
    (out : list string) :
  List.length costs = List.length supply * List.length demand ->
  transport_model supply demand costs (fresh_world out) =
  (Ok tt, mk_World (transport_spec supply demand costs) out).
Proof.
  intros Hc. rewrite transport_model_cases.
  destruct (transport_any_spec supply demand costs Hc) as [-> ->].
  reflexivity.
Qed.

Lemma transport_model_outcome (supply demand costs : list num)
    (out : list string) :
  (exists p, transport_model supply demand costs (fresh_world out) =
             (Ok tt, mk_World p out)) \/
  (exists msg p, transport_model supply demand costs (fresh_world out) =
                 (Raise (CplexError msg), mk_World p out)).
Proof.
  rewrite transport_model_cases.
  destruct (costs_refused supply demand costs).
  - right. eauto.
  - left. eauto.
Qed.

(** With one cost per shipment variable the builder completes. *)
Lemma transport_model_quiet (supply demand costs : list num) :
  List.length costs = List.length supply * List.length demand ->
  quiet (transport_model supply demand costs).
Proof.
  intros Hcosts. unfold transport_model.
  apply quiet_bind; [apply quiet_update_problem |].
  apply quiet_bind.
  - intros w. rewrite variables_add_costs.
    destruct (transport_any_spec supply demand costs Hcosts) as [-> _].
    eexists. reflexivity.
  - apply quiet_bind; apply quiet_for_each; intros i Hi;
      unfold range in Hi; apply in_seq in Hi.
    + apply quiet_row_of. lia.
    + apply quiet_row_of. lia.
Qed.

End TransportRun.

(** ** The solver fails *)

Section SolverFails.
Context {num sval : Type} {NUM : PyNum num} {TXT : Texts}
  {LIB : Library num sval}.


End SolverFails.

(** ** The 2 x 2 transportation scenario *)

(** The model the builder leaves for the scenario. *)
Lemma transport_model_22 :
  transport_model supply22 demand22 costs22 (fresh_world []) =
  (Ok tt,
   mk_World
     (mk_Cplex minimize
        [ mk_var (Some "x0_0"%string) 1%Z 0%Z ub_inf;
          mk_var (Some "x0_1"%string) 2%Z 0%Z ub_inf;
          mk_var (Some "x1_0"%string) 3%Z 0%Z ub_inf;
          mk_var (Some "x1_1"%string) 4%Z 0%Z ub_inf ]
        [ mk_lincon (mk_SparsePair ["x0_0"; "x0_1"]%string [1; 1]%Z)
            sense_L 10%Z None;
          mk_lincon (mk_SparsePair ["x1_0"; "x1_1"]%string [1; 1]%Z)
            sense_L 20%Z None;
          mk_lincon (mk_SparsePair ["x0_0"; "x1_0"]%string [1; 1]%Z)
            sense_E 15%Z None;
          mk_lincon (mk_SparsePair ["x0_1"; "x1_1"]%string [1; 1]%Z)
            sense_E 15%Z None ]
        [])
     []).
Proof. vm_compute. reflexivity. Qed.

(** The plan meets every bound and row of that model. *)
Lemma plan22_feasible :
  feasible
    (problem (snd (transport_model supply22 demand22 costs22 (fresh_world []))))
    plan22.
Proof.
  rewrite transport_model_22. unfold feasible. simpl. split.
  - repeat constructor; unfold in_bounds, var_name, plan22; simpl; lra.
  - repeat constructor; unfold row_holds, row_value, plan22; simpl; lra.
Qed.

(** C7.  For supply [10, 20], demand [15, 15] and costs [1, 2, 3, 4] the
    builder succeeds; the model has the four shipment variables, two supply
    rows of sense "L" with right-hand sides 10 and 20, two demand rows of
    sense "E" with right-hand sides 15 and 15, and no other row; and every
    feasible assignment of the variables, so every optimal one, ships 30
    units in total, which is the total demand. *)
Theorem transport_scenario_22 :
  let run := transport_model supply22 demand22 costs22 (fresh_world []) in
  let m := problem (snd run) in
  fst run = Ok tt /\
  map var_name (variables m) = ["x0_0"; "x0_1"; "x1_0"; "x1_1"]%string /\
  map (fun c => (ind (lin_expr c), val (lin_expr c), senses c, rhs c))
    (linear_constraints m) =
  [ (["x0_0"; "x0_1"]%string, [1; 1]%Z, sense_L, 10%Z);
    (["x1_0"; "x1_1"]%string, [1; 1]%Z, sense_L, 20%Z);
    (["x0_0"; "x1_0"]%string, [1; 1]%Z, sense_E, 15%Z);
    (["x0_1"; "x1_1"]%string, [1; 1]%Z, sense_E, 15%Z) ] /\
  sum demand22 = 30%Z /\
  forall x, feasible m x -> total_shipped m x = 30%R.
Proof.
  cbv zeta. rewrite transport_model_22. simpl fst. simpl snd. simpl problem.
  split; [reflexivity |]. split; [reflexivity |]. split; [reflexivity |].
  split; [reflexivity |].
  intros x [_ Hrows]. simpl in Hrows.
  inversion_clear Hrows as [| ? ? _ Hrows'].
  inversion_clear Hrows' as [| ? ? _ Hrows].
  inversion_clear Hrows as [| ? ? Hd0 Hrows'].
  inversion_clear Hrows' as [| ? ? Hd1 _].
  unfold row_holds, row_value in Hd0, Hd1. simpl in Hd0, Hd1.
  unfold total_shipped, var_name. simpl. lra.
Qed.

(** ** The theorems at concrete inputs *)

(** The two-facility scenario has matching dimensions. *)
Lemma matching_scenario_2 : matching circles2 flows2 2.
Proof.
  split; [reflexivity |]. split; [reflexivity |].
  repeat constructor.
Qed.

Lemma scenario_2_small : 2 <= 11.
Proof. lia. Qed.

Lemma pair_01_ordered : In (0, 1) (ordered_pairs 2).
Proof. apply in_ordered_pairs. lia. Qed.

(** The rows of the two-facility scenario. *)
Lemma assign_constraints_le_11_witness :
  2 <= 11 /\ matching circles2 flows2 2 /\
  linear_constraints
    (problem (snd (assign_model circles2 flows2 2 (fresh_world [])))) =
  flat_map spec_circle_rows (enumerate circles2)
  ++ flat_map spec_aux_rows (ordered_pairs 2).
Proof.
  split; [exact scenario_2_small |].
  split; [exact matching_scenario_2 |].
  apply (assign_constraints_le_11 circles2 flows2 2 [] scenario_2_small
           matching_scenario_2).
Defined.

(** The two-facility scenario has twelve rows. *)
Lemma assign_counts_le_11_witness :
  2 <= 11 /\ matching circles2 flows2 2 /\
  List.length
    (linear_constraints
       (problem (snd (assign_model circles2 flows2 2 (fresh_world []))))) =
  4 * 2 + 2 * 2 * (2 - 1).
Proof.
  split; [exact scenario_2_small |].
  split; [exact matching_scenario_2 |].
  apply (assign_counts_le_11 circles2 flows2 2 [] scenario_2_small
           matching_scenario_2).
Defined.

Lemma assign_model_scenario_2 :
  fst (assign_model circles2 flows2 2 (fresh_world [])) = Ok tt.
Proof.
  rewrite (assign_model_built circles2 flows2 2 [] scenario_2_small
             matching_scenario_2).
  reflexivity.
Qed.

(** In the two-facility scenario [d01] occurs in the two rows of (0, 1). *)
Lemma assign_aux_rows_built_witness :
  fst (assign_model circles2 flows2 2 (fresh_world [])) = Ok tt /\
  In (0, 1) (ordered_pairs 2) /\
  map names
    (rows_with (d_var (0, 1))
       (problem (snd (assign_model circles2 flows2 2 (fresh_world []))))) =
  [Some "aux_distance_01_lb"%string; Some "aux_distance_01_ub"%string] /\
  List.length
    (rows_with (d_var (0, 1))
       (problem (snd (assign_model circles2 flows2 2 (fresh_world []))))) = 2.
Proof.
  split; [exact assign_model_scenario_2 |].
  split; [exact pair_01_ordered |].
  destruct (assign_aux_rows_built circles2 flows2 2 (0, 1)
              assign_model_scenario_2 pair_01_ordered) as [Hrows [Hlen _]].
  split; [rewrite Hrows; reflexivity | exact Hlen].
Defined.

(** The two flow matrices of the scenario differ on the diagonal only. *)
Lemma flows2_off_diagonal (i j : nat) :
  i < 2 -> j < 2 -> i <> j ->
  flows_getitem flows2 i j = flows_getitem flows2_diagonal i j.
Proof.
  intros _ _ Hij.
  destruct i as [| [| i]]; destruct j as [| [| j]];
    try reflexivity; try contradiction;
    try (destruct j; reflexivity); destruct i; reflexivity.
Qed.

(** Both flow matrices give the same run. *)
Lemma assign_ignores_diagonal_witness :
  (forall i j, i < 2 -> j < 2 -> i <> j ->
     flows_getitem flows2 i j = flows_getitem flows2_diagonal i j) /\
  flows2 <> flows2_diagonal /\
  assign_model circles2 flows2 2 (fresh_world []) =
  assign_model circles2 flows2_diagonal 2 (fresh_world []).
Proof.
  split; [exact flows2_off_diagonal |]. split; [discriminate |].
  apply (assign_ignores_diagonal circles2 flows2 flows2_diagonal 2 []
           flows2_off_diagonal).
Defined.



(** The generator on two sources and two destinations, seed 42: it returns
    data, and the demands add up to the supplies. *)
Lemma generate_data_balanced_witness :
  ((1 <= 2)%nat /\ (1 <= 2)%nat /\
   (fst (50, 100) <= snd (50, 100))%Z /\ (fst (1, 20) <= snd (1, 20))%Z /\
   (Z.of_nat 2 <= fst (50, 100) * Z.of_nat 2)%Z) /\
  exists supply demand costs g',
    generate_data 2 2 (50, 100)%Z (1, 20)%Z 42%Z =
    Ok (supply, demand, costs, g') /\
    sum demand = sum supply /\
    List.length supply = 2 /\
    List.length demand = 2.
Proof.
  split; [cbn [fst snd]; lia |].
  apply (generate_data_balanced (RNG := lcg) lcg_draw_range 2 2
           (50, 100)%Z (1, 20)%Z 42%Z); cbn [fst snd]; lia.
Defined.

(** The plan ships 30 units. *)
Lemma transport_scenario_22_witness :
  feasible
    (problem (snd (transport_model supply22 demand22 costs22 (fresh_world []))))
    plan22 /\
  total_shipped
    (problem (snd (transport_model supply22 demand22 costs22 (fresh_world []))))
    plan22 = 30%R.
Proof.
  split; [exact plan22_feasible |].
  apply (proj2 (proj2 (proj2 (proj2 transport_scenario_22)))).
  exact plan22_feasible.
Defined.

(** * Further properties of the code *)

(** ** Names that cannot clash *)

Lemma str_inj (i j : nat) : str i = str j -> i = j.
Proof.
  unfold str. intros E. apply DecimalNat.Unsigned.to_uint_inj.
  assert (Es : Some (Nat.to_uint i) = Some (Nat.to_uint j)).
  { rewrite <- (NilEmpty.usu (Nat.to_uint i)), <- (NilEmpty.usu (Nat.to_uint j)).
    rewrite E. reflexivity. }
  congruence.
Qed.

Lemma str_no_underscore (i : nat) : mentions "_" (str i) = false.
Proof.
  unfold str. induction (Nat.to_uint i) as [| d IH | d IH | d IH | d IH
    | d IH | d IH | d IH | d IH | d IH | d IH]; simpl; auto.
Qed.

Lemma append_split (c : ascii) (a a' s s' : string) :
  mentions c a = false -> mentions c a' = false ->
  (a ^^ String c s)%string = (a' ^^ String c s')%string ->
  a = a' /\ s = s'.
Proof.
  revert a'. induction a as [| x a IH]; intros [| x' a']; simpl.
  - intros _ _ [= ->]. auto.
  - intros _ Hc [= <- _]. rewrite Ascii.eqb_refl in Hc. discriminate.
  - intros Hc _ [= -> _]. rewrite Ascii.eqb_refl in Hc. discriminate.
  - intros Ha Ha' [= <- E].
    apply orb_false_iff in Ha. apply orb_false_iff in Ha'.
    destruct (IH a' (proj2 Ha) (proj2 Ha') E) as [-> ->]. auto.
Qed.

Lemma shipment_inj (i j i' j' : nat) :
  shipment i j = shipment i' j' -> i = i' /\ j = j'.
Proof.
  unfold shipment. simpl. intros [= E].
  apply (append_split "_") in E; try apply str_no_underscore.
  destruct E as [Ei Ej]. split; apply str_inj; assumption.
Qed.

(** X4.  The shipment names of the transportation model keep their two indices
    apart: two shipments have one name only when they are one shipment,
    whatever the size of the problem. *)
Theorem shipment_unambiguous (i j i' j' : nat) :
  shipment i j = shipment i' j' <-> i = i' /\ j = j'.
Proof.
  split; [apply shipment_inj | intros [-> ->]; reflexivity].
Qed.

Lemma NoDup_shipment_names {num : Type} (supply demand : list num) :
  NoDup (shipment_names supply demand).
Proof.
  unfold shipment_names, range.
  generalize (List.length demand) as cols.
  generalize (List.length supply) as rows. intros rows cols.
  assert (Hrows : NoDup (seq 0 rows)) by apply seq_NoDup.
  induction Hrows as [| i l Hi Hl IH]; simpl.
  - constructor.
  - apply NoDup_app.
    + apply NoDup_map_on; [apply seq_NoDup |].
      intros j j' _ _ E. apply shipment_inj in E. apply E.
    + exact IH.
    + intros nm Hin Hin'.
      apply in_map_iff in Hin. destruct Hin as [j [<- _]].
      apply in_flat_map in Hin'. destruct Hin' as [i' [Hi' Hin']].
      apply in_map_iff in Hin'. destruct Hin' as [j' [E _]].
      apply shipment_inj in E. destruct E as [-> _].
      contradiction.
Qed.

Lemma x_var_inj (i j : nat) : x_var i = x_var j -> i = j.
Proof. unfold x_var. simpl. intros [= E]. apply str_inj, E. Qed.

Lemma y_var_inj (i j : nat) : y_var i = y_var j -> i = j.
Proof. unfold y_var. simpl. intros [= E]. apply str_inj, E. Qed.

(** X10.  The names the assignment builder hands to [variables.add] are pairwise
    distinct exactly up to [n = 11]: the position names never clash, with
    each other or with an auxiliary name, and the auxiliary names clash from
    12 on. *)
Theorem assign_names_distinct_iff (n : nat) :
  NoDup (x_names n ++ y_names n ++ d_names n) <-> n <= 11.
Proof.
  split.
  - intros Hnd. destruct (Nat.le_gt_cases n 11) as [Hle | Hgt]; [exact Hle |].
    exfalso.
    apply NoDup_app_remove_l, NoDup_app_remove_l in Hnd.
    rewrite d_names_ordered in Hnd.
    assert (E : (1, 10) = (11, 0)).
    { apply (NoDup_map_same d_var (ordered_pairs n)); try exact Hnd.
      - apply in_ordered_pairs. lia.
      - apply in_ordered_pairs. lia.
      - reflexivity. }
    discriminate.
  - intros Hn. rewrite d_names_ordered.
    change (x_names n) with (map x_var (range n)).
    change (y_names n) with (map y_var (range n)).
    apply NoDup_app; [| apply NoDup_app |].
    + apply NoDup_map_on; [apply seq_NoDup |].
      intros i j _ _. apply x_var_inj.
    + apply NoDup_map_on; [apply seq_NoDup |].
      intros i j _ _. apply y_var_inj.
    + apply NoDup_map_on; [apply NoDup_ordered_pairs |].
      intros p q Hp Hq E.
      apply (unambiguous_names n q p (unambiguous_le_11 n Hn) Hq Hp E).
    + intros nm Hy Hd.
      apply in_map_iff in Hy. destruct Hy as [i [<- _]].
      apply in_map_iff in Hd. destruct Hd as [p [E _]].
      unfold d_var, y_var in E. simpl in E. discriminate.
    + intros nm Hx Hyd.
      apply in_map_iff in Hx. destruct Hx as [i [<- _]].
      apply in_app_or in Hyd. destruct Hyd as [Hy | Hd].
      * apply in_map_iff in Hy. destruct Hy as [j [E _]].
        unfold x_var, y_var in E. simpl in E. discriminate.
      * apply in_map_iff in Hd. destruct Hd as [p [E _]].
        unfold d_var, x_var in E. simpl in E. discriminate.
Qed.

(** ** The builders never print *)

Section Silent.
Context {num : Type} {NUM : PyNum num} {TXT : Texts}.

Lemma silent_bind {A B : Type} (m : M num A) (k : A -> M num B) :
  silent m -> (forall a, silent (k a)) -> silent (bind m k).
Proof.
  intros Hm Hk w. unfold bind. specialize (Hm w).
  destruct (m w) as [[a | e] w']; simpl in *.
  - rewrite (Hk a w'). exact Hm.
  - exact Hm.
Qed.

Lemma silent_eval {A : Type} (r : result A) : silent (eval (num := num) r).
Proof. intros w. reflexivity. Qed.

Lemma silent_update_problem (f : Cplex num -> Cplex num) :
  silent (update_problem f).
Proof. intros w. reflexivity. Qed.

Lemma silent_variables_add (obj : option (list num)) (lb : option (list Z))
    (ub : option (list (ubound num))) (nms : list string) :
  silent (variables_add obj lb ub nms).
Proof.
  intros w. unfold variables_add.
  match goal with |- context [if ?c then _ else _] => destruct c end;
    reflexivity.
Qed.

Lemma silent_objective_set_linear (terms : list (string * num)) :
  silent (objective_set_linear terms).
Proof.
  intros w. unfold objective_set_linear.
  destruct (has_dup (map fst terms)); reflexivity.
Qed.

Lemma silent_for_each {A : Type} (body : A -> M num unit) (l : list A) :
  (forall a, silent (body a)) -> silent (for_each l body).
Proof.
  intros Hbody. induction l as [| a l IH]; simpl.
  - intros w. reflexivity.
  - apply silent_bind; [apply Hbody | intros _; exact IH].
Qed.

Lemma silent_circle_body (x y : list string) (t : nat * circle num) :
  silent (circle_body x y t).
Proof.
  destruct t as [i [[a b] r]]. unfold circle_body.
  repeat (apply silent_bind;
          [first [apply silent_eval | apply silent_update_problem] | intros ?]).
  apply silent_update_problem.
Qed.

Lemma silent_aux_body (x y d : list string) (t : nat * (nat * nat)) :
  silent (aux_body x y d t).
Proof.
  destruct t as [idx [i j]]. unfold aux_body.
  repeat (apply silent_bind;
          [first [apply silent_eval | apply silent_update_problem] | intros ?]).
  apply silent_update_problem.
Qed.

Lemma silent_assign_model (circles : list (circle num))
    (flows : list (list num)) (n : nat) :
  silent (assign_model circles flows n).
Proof.
  unfold assign_model.
  apply silent_bind; [apply silent_update_problem | intros _].
  apply silent_bind; [apply silent_variables_add | intros _].
  apply silent_bind; [apply silent_variables_add | intros _].
  apply silent_bind;
    [apply silent_for_each; intros t; apply silent_circle_body | intros _].
  apply silent_bind; [apply silent_eval | intros terms].
  apply silent_bind; [apply silent_objective_set_linear | intros _].
  apply silent_for_each. intros t. apply silent_aux_body.
Qed.

Lemma silent_transport_model (supply demand costs : list num) :
  silent (transport_model supply demand costs).
Proof.
  unfold transport_model.
  apply silent_bind; [apply silent_update_problem | intros _].
  apply silent_bind; [apply silent_variables_add | intros _].
  apply silent_bind; [| intros _]; apply silent_for_each; intros i;
    (apply silent_bind; [apply silent_eval | intros v]);
    apply silent_update_problem.
Qed.

(** A loop that prints one line per round. *)
Lemma for_each_print {A : Type} (body : A -> M num unit) (line : A -> string)
    (l : list A) :
  (forall a, In a l -> forall w, body a w = print (line a) w) ->
  forall w,
    for_each l body w =
    (Ok tt, mk_World (problem w) (stdout w ++ map line l)).
Proof.
  induction l as [| a l IH]; intros Hbody w; simpl.
  - unfold ret. rewrite app_nil_r. destruct w. reflexivity.
  - unfold bind. rewrite (Hbody a (or_introl eq_refl) w). unfold print at 1.
    rewrite IH by (intros b Hb; apply Hbody; right; exact Hb).
    simpl. rewrite <- app_assoc. reflexivity.
Qed.

End Silent.

(** ** What [assign_problem] reports *)

Section AssignReport.
Context {num sval : Type} {NUM : PyNum num} {TXT : Texts}
  {LIB : Library num sval}.

(** The line [assign_problem] prints for facility [i] when the solution has
    values for its two position variables. *)
Lemma assign_report_line (n : nat) (sol : Solution sval) (i : nat)
    (vx vy : sval) (w : World num) :
  i < n ->
  get_values_of sol (x_var i) = Ok vx ->
  get_values_of sol (y_var i) = Ok vy ->
  assign_report n sol i w =
  print ("(" ^^ show vx ^^ ", " ^^ show vy ^^ ")")%string w.
Proof.
  intros Hi Hx Hy. unfold assign_report, x_names, y_names.
  change (fun i : nat => ("x" ^^ str i)%string) with x_var.
  change (fun i : nat => ("y" ^^ str i)%string) with y_var.
  rewrite !getitem_map_range by exact Hi.
  unfold bind, eval. rewrite Hx, Hy. reflexivity.
Qed.

(** X8.  Up to [n = 11], when the dimensions match, the solver returns and
    the solution has an objective value and values for the position
    variables, [assign_problem] prints the status, the objective value and
    then one line [(x_i, y_i)] per facility, in the order of the facilities,
    and nothing else. *)
Theorem assign_problem_report (circles : list (circle num))
    (flows : list (list num)) (n : nat) (sol : Solution sval)
    (v : sval) (vals : string -> sval) (w : World num) :
  Cplex_raises = None ->
  n <= 11 -> matching circles flows n ->
  solve (spec_model circles flows n) = Ok sol ->
  get_objective_value sol = Ok v ->
  (forall i, i < n ->
     get_values_of sol (x_var i) = Ok (vals (x_var i)) /\
     get_values_of sol (y_var i) = Ok (vals (y_var i))) ->
  assign_problem circles flows n w =
  (Ok tt,
   mk_World (spec_model circles flows n)
     (stdout w
      ++ [("Solution status: " ^^ get_status_string sol)%string;
          ("Objective value: " ^^ show v)%string]
      ++ map (fun i =>
                ("(" ^^ show (vals (x_var i)) ^^ ", "
                   ^^ show (vals (y_var i)) ^^ ")")%string)
             (range n))).
Proof.
  intros Hnew Hn Hm Hsolve Hobj Hvals.
  pose proof (assign_model_built circles flows n (stdout w) Hn Hm) as Ea.
  unfold fresh_world in Ea.
  unfold assign_problem.
  erewrite bind_Ok by (unfold cplex_Cplex; rewrite Hnew; reflexivity).
  erewrite bind_Ok by exact Ea.
  erewrite bind_Ok by (unfold problem_solve; simpl; rewrite Hsolve; reflexivity).
  erewrite bind_Ok by reflexivity.
  erewrite bind_Ok by (unfold eval; rewrite Hobj; reflexivity).
  erewrite bind_Ok by reflexivity.
  rewrite (for_each_print _
             (fun i => ("(" ^^ show (vals (x_var i)) ^^ ", "
                          ^^ show (vals (y_var i)) ^^ ")")%string)).
  - simpl. rewrite <- !app_assoc. reflexivity.
  - intros i Hi w'.
    unfold range in Hi. apply in_seq in Hi.
    destruct (Hvals i) as [Hx Hy]; [lia |].
    apply assign_report_line; [lia | exact Hx | exact Hy].
Qed.

(** X22.  When the solver returns without a solution, as it does for an
    infeasible model, [assign_problem] prints the status line and then ends
    with the error of [get_objective_value]. *)
Theorem assign_problem_no_solution (circles : list (circle num))
    (flows : list (list num)) (n : nat) (sol : Solution sval)
    (e : exn) (w : World num) :
  Cplex_raises = None ->
  n <= 11 -> matching circles flows n ->
  solve (spec_model circles flows n) = Ok sol ->
  get_objective_value sol = Raise e ->
  assign_problem circles flows n w =
  (Raise e,
   mk_World (spec_model circles flows n)
     (stdout w ++ [("Solution status: " ^^ get_status_string sol)%string])).
Proof.
  intros Hnew Hn Hm Hsolve Hobj.
  pose proof (assign_model_built circles flows n (stdout w) Hn Hm) as Ea.
  unfold fresh_world in Ea.
  unfold assign_problem.
  erewrite bind_Ok by (unfold cplex_Cplex; rewrite Hnew; reflexivity).
  erewrite bind_Ok by exact Ea.
  erewrite bind_Ok by (unfold problem_solve; simpl; rewrite Hsolve; reflexivity).
  erewrite bind_Ok by reflexivity.
  apply bind_Raise_at. unfold eval. rewrite Hobj. reflexivity.
Qed.

(** X21.  From [n = 12] on [assign_problem] never reaches the solver on a
    matching input: it ends with the error of [set_linear], has printed
    nothing, and leaves the variables and the circle rows behind. *)
Theorem assign_problem_stops_12 (circles : list (circle num))
    (flows : list (list num)) (n : nat) (w : World num) :
  Cplex_raises = None ->
  12 <= n -> matching circles flows n ->
  assign_problem circles flows n w =
  (Raise (CplexError duplicate_entries),
   mk_World (circle_model circles n) (stdout w)).
Proof.
  intros Hnew Hn Hm.
  pose proof (assign_model_stops circles flows n (stdout w) Hn Hm) as Ea.
  unfold fresh_world in Ea.
  unfold assign_problem.
  erewrite bind_Ok by (unfold cplex_Cplex; rewrite Hnew; reflexivity).
  apply bind_Raise_at. exact Ea.
Qed.

(** X9.  An input that runs into an out-of-range access stops [assign_problem]
    before the solver is called: the [IndexError] reaches the caller and
    nothing has been printed, whatever the solver would have done. *)
Theorem assign_problem_index_error (circles : list (circle num))
    (flows : list (list num)) (n : nat) (w : World num) :
  Cplex_raises = None ->
  index_error circles flows n ->
  fst (assign_problem circles flows n w) = Raise IndexError /\
  stdout (snd (assign_problem circles flows n w)) = stdout w.
Proof.
  intros Hnew Herr.
  assert (Hraise :
    fst (assign_model circles flows n (fresh_world (stdout w))) =
    Raise IndexError).
  { pose proof (assign_model_run circles flows n []) as H0.
    pose proof (assign_model_run circles flows n (stdout w)) as Hw.
    unfold index_error in Herr.
    destruct ((List.length circles <=? n) && flows_cover flows n).
    - rewrite H0 in Herr. destruct (12 <=? n); discriminate.
    - exact Hw. }
  pose proof (silent_assign_model circles flows n (fresh_world (stdout w)))
    as Hquiet.
  unfold assign_problem, bind, cplex_Cplex. rewrite Hnew.
  unfold fresh_world in Hraise, Hquiet.
  destruct (assign_model circles flows n
              (mk_World empty_problem (stdout w))) as [[u | e] w'];
    simpl in Hraise, Hquiet.
  - discriminate.
  - injection Hraise as ->. simpl. auto.
Qed.

End AssignReport.

(** ** The transportation model for every input *)

Section TransportModel.
Context {num : Type} {NUM : PyNum num} {TXT : Texts}.

Lemma length_transport_columns (supply demand costs : list num) :
  List.length (transport_columns supply demand costs) =
  Nat.max (List.length costs) (List.length supply * List.length demand).
Proof.
  unfold transport_columns, range. rewrite length_map, length_seq.
  reflexivity.
Qed.

Lemma length_transport_rows (supply demand : list num) :
  List.length (transport_rows supply demand) =
  List.length supply + List.length demand.
Proof.
  unfold transport_rows, range.
  rewrite length_app, !length_map, !length_seq. reflexivity.
Qed.

(** X1.  The transportation builder checks one thing only, through
    [variables.add], which refuses the costs when there are costs and
    shipment variables and not as many of the one as of the other; nothing
    has then been added.  Otherwise the builder completes: one column per
    cost or shipment variable, whichever are more, named [x{i}_{j}] as far
    as the names go, with its cost (or none) and bounds [0, inf), then one
    "L" row per source and one "E" row per destination.  With one cost per
    shipment variable that is the model written out in [transport_spec], of
    [len(supply) * len(demand)] variables. *)
Theorem transport_model_exact (supply demand costs : list num)
    (out : list string) :
  transport_model supply demand costs (fresh_world out) =
    (if costs_refused supply demand costs
     then (Raise (CplexError inconsistent_arguments),
           mk_World empty_problem out)
     else (Ok tt, mk_World (transport_any supply demand costs) out)) /\
  List.length (variables (transport_any supply demand costs)) =
    Nat.max (List.length costs) (List.length supply * List.length demand) /\
  List.length (linear_constraints (transport_any supply demand costs)) =
    List.length supply + List.length demand /\
  (List.length costs = List.length supply * List.length demand \/
   costs = [] ->
   costs_refused supply demand costs = false /\
   map var_name (variables (transport_any supply demand costs)) =
     shipment_names supply demand /\
   map var_obj (variables (transport_any supply demand costs)) =
     map (fun k => nth k costs (pint 0))
       (range (List.length supply * List.length demand))) /\
  (List.length costs = List.length supply * List.length demand ->
   transport_any supply demand costs = transport_spec supply demand costs).
Proof.
  split; [apply transport_model_cases |].
  split; [apply length_transport_columns |].
  split; [apply length_transport_rows |].
  split; [| apply transport_any_spec].
  intros Hc.
  assert (Hmax : Nat.max (List.length costs)
                   (List.length supply * List.length demand) =
                 List.length supply * List.length demand).
  { destruct Hc as [-> | ->]; [apply Nat.max_id | reflexivity]. }
  split; [| split].
  - unfold costs_refused.
    destruct Hc as [-> | ->].
    + rewrite Nat.eqb_refl. cbn [negb]. apply andb_false_r.
    + reflexivity.
  - cbn [transport_any variables]. unfold transport_columns.
    rewrite Hmax, map_map, <- length_shipment_names.
    transitivity
      (map (fun k =>
              match nth_error (shipment_names supply demand) k with
              | Some nm => nm
              | None => EmptyString
              end)
         (range (List.length (shipment_names supply demand))));
      [apply map_ext; reflexivity |].
    rewrite (map_nth_error_range
               (fun o : option string =>
                  match o with Some nm => nm | None => EmptyString end)).
    apply map_id.
  - cbn [transport_any variables]. unfold transport_columns.
    rewrite Hmax, map_map. reflexivity.
Qed.

End TransportModel.

(** ** What [transportation_problem] does around the solver *)

Section TransportScript.
Context {num sval : Type} {NUM : PyNum num} {TXT : Texts}
  {LIB : Library num sval}.

(** X5.  With [show=False], and a solver that raises nothing but [CplexError],
    [transportation_problem] returns normally on every input, lists of any
    lengths included, and prints at most the one line of its handler. *)
Theorem transportation_problem_returns (supply demand costs : list num)
    (w : World num) :
  (forall p e, solve p = Raise e -> exists msg, e = CplexError msg) ->
  fst (transportation_problem supply demand costs false w) = Ok tt /\
  (stdout (snd (transportation_problem supply demand costs false w)) =
     stdout w \/
   exists msg,
     stdout (snd (transportation_problem supply demand costs false w)) =
     stdout w ++ [("Exception raised: " ^^ msg)%string]).
Proof.
  intros Hsolve.
  unfold transportation_problem, try_except_CplexError, bind, cplex_Cplex.
  destruct Cplex_raises as [msg |].
  - simpl. split; [reflexivity | right; exists msg; reflexivity].
  - fold (fresh_world (num := num) (stdout w)).
    destruct (transport_model_outcome supply demand costs (stdout w))
      as [[p Ep] | [msg [p Ep]]]; rewrite Ep.
    + unfold problem_solve. cbn [problem].
      destruct (solve p) as [sol | e] eqn:Es.
      * simpl. auto.
      * destruct (Hsolve p e Es) as [msg ->].
        simpl. split; [reflexivity | right; exists msg; reflexivity].
    + simpl. split; [reflexivity | right; exists msg; reflexivity].
Qed.

(** X6.  When [variables.add] refuses the costs, there being costs and
    shipment variables and not as many of the one as of the other,
    [transportation_problem] never reaches the solver: it prints the one
    line of its handler with the error's text and returns, with nothing
    added to the problem, whatever the solver would have done. *)
Theorem transportation_problem_bad_costs (supply demand costs : list num)
    (show_solution : bool) (w : World num) :
  Cplex_raises = None ->
  costs <> [] ->
  List.length supply * List.length demand <> 0 ->
  List.length costs <> List.length supply * List.length demand ->
  transportation_problem supply demand costs show_solution w =
  (Ok tt,
   mk_World empty_problem
     (stdout w ++ [("Exception raised: " ^^ inconsistent_arguments)%string])).
Proof.
  intros Hnew Hne Hk Hc.
  pose proof (transport_model_cases supply demand costs (stdout w)) as Hrun.
  assert (Href : costs_refused supply demand costs = true).
  { unfold costs_refused.
    destruct costs as [| c costs]; [contradiction |].
    apply Nat.eqb_neq in Hk, Hc. rewrite Hk, Hc. reflexivity. }
  rewrite Href in Hrun.
  unfold transportation_problem, try_except_CplexError, bind, cplex_Cplex.
  rewrite Hnew. unfold fresh_world in Hrun. rewrite Hrun. reflexivity.
Qed.

(** A loop whose rounds print a line or do nothing. *)
Lemma for_each_print_some {A : Type} (body : A -> M num unit)
    (keep : A -> bool) (line : A -> string) (l : list A) :
  (forall a, In a l -> forall w,
     body a w = if keep a then print (line a) w else ret tt w) ->
  forall w,
    for_each l body w =
    (Ok tt, mk_World (problem w) (stdout w ++ map line (filter keep l))).
Proof.
  induction l as [| a l IH]; intros Hbody w; simpl.
  - unfold ret. rewrite app_nil_r. destruct w. reflexivity.
  - unfold bind. rewrite (Hbody a (or_introl eq_refl) w).
    destruct (keep a).
    + unfold print at 1.
      rewrite IH by (intros b Hb; apply Hbody; right; exact Hb).
      simpl. rewrite <- app_assoc. reflexivity.
    + unfold ret at 1.
      rewrite IH by (intros b Hb; apply Hbody; right; exact Hb).
      reflexivity.
Qed.

(** X7.  With [show=True], one cost per variable and a solver that returns
    a solution with an objective value and no more values than there are
    variables, [transportation_problem] prints the status, the objective
    value and then, in the order of the variables, a line [name = value] for
    the strictly positive values only. *)
Theorem transportation_problem_report (supply demand costs : list num)
    (sol : Solution sval) (v : sval) (values : list sval) (w : World num) :
  Cplex_raises = None ->
  List.length costs = List.length supply * List.length demand ->
  solve (transport_spec supply demand costs) = Ok sol ->
  get_objective_value sol = Ok v ->
  get_values sol = Ok values ->
  List.length values <= List.length supply * List.length demand ->
  transportation_problem supply demand costs true w =
  (Ok tt,
   mk_World (transport_spec supply demand costs)
     (stdout w
      ++ [("Solution status: " ^^ get_status_string sol)%string;
          ("Objective value: " ^^ show v)%string]
      ++ map (fun t =>
                (nth (fst t) (shipment_names supply demand) EmptyString
                   ^^ " = " ^^ show (snd t))%string)
             (filter (fun t => positive (snd t)) (enumerate values)))).
Proof.
  intros Hnew Hc Hsolve Hobj Hvals Hlen.
  pose proof (transport_model_built supply demand costs (stdout w) Hc) as Et.
  unfold fresh_world in Et.
  unfold transportation_problem, try_except_CplexError.
  erewrite bind_Ok by (unfold cplex_Cplex; rewrite Hnew; reflexivity).
  erewrite bind_Ok by exact Et.
  erewrite bind_Ok by (unfold problem_solve; simpl; rewrite Hsolve; reflexivity).
  erewrite bind_Ok by reflexivity.
  erewrite bind_Ok by (unfold eval; rewrite Hobj; reflexivity).
  erewrite bind_Ok by reflexivity.
  erewrite bind_Ok by (unfold eval; rewrite Hvals; reflexivity).
  rewrite (for_each_print_some _ (fun t => positive (snd t))
             (fun t => (nth (fst t) (shipment_names supply demand) EmptyString
                          ^^ " = " ^^ show (snd t))%string)).
  - simpl. rewrite <- !app_assoc. reflexivity.
  - intros [i x] Hin w'. unfold transport_report. simpl.
    destruct (positive x); [| reflexivity].
    apply in_enumerate_lt in Hin.
    assert (Hi : i < List.length (shipment_names supply demand))
      by (rewrite length_shipment_names; lia).
    unfold bind, eval.
    destruct (nth_error (shipment_names supply demand) i) as [nm |] eqn:E.
    + rewrite (getitem_Ok _ i nm E), (nth_error_nth _ i _ E). reflexivity.
    + apply nth_error_None in E. lia.
Qed.

(** X23.  With [show=True], when the solver returns without a solution, as
    it does for an infeasible model, [get_objective_value] raises a
    [CplexError] after the status line has been printed:
    [transportation_problem] prints the status line, then the line of its
    handler, and returns. *)
Theorem transportation_problem_no_solution (supply demand costs : list num)
    (sol : Solution sval) (msg : string) (w : World num) :
  Cplex_raises = None ->
  List.length costs = List.length supply * List.length demand ->
  solve (transport_spec supply demand costs) = Ok sol ->
  get_objective_value sol = Raise (CplexError msg) ->
  transportation_problem supply demand costs true w =
  (Ok tt,
   mk_World (transport_spec supply demand costs)
     (stdout w
      ++ [("Solution status: " ^^ get_status_string sol)%string;
          ("Exception raised: " ^^ msg)%string])).
Proof.
  intros Hnew Hc Hsolve Hobj.
  pose proof (transport_model_built supply demand costs (stdout w) Hc) as Et.
  unfold fresh_world in Et.
  unfold transportation_problem, try_except_CplexError.
  erewrite bind_Ok by (unfold cplex_Cplex; rewrite Hnew; reflexivity).
  erewrite bind_Ok by exact Et.
  erewrite bind_Ok by (unfold problem_solve; simpl; rewrite Hsolve; reflexivity).
  erewrite bind_Ok by reflexivity.
  erewrite bind_Raise_at by (unfold eval; rewrite Hobj; reflexivity).
  unfold print. simpl. rewrite <- app_assoc. reflexivity.
Qed.

End TransportScript.

(** ** What the rows of the models say *)

Section Rows.
Context {TXT : Texts}.
Local Open Scope R_scope.



Lemma sum_R_plus {A : Type} (f g : A -> R) (l : list A) :
  sum_R (map (fun a => f a + g a) l) = sum_R (map f l) + sum_R (map g l).
Proof.
  unfold sum_R. induction l as [| a l IH]; simpl; [lra | rewrite IH; lra].
Qed.

Lemma sum_R_zero {A : Type} (l : list A) : sum_R (map (fun _ => 0) l) = 0.
Proof.
  unfold sum_R. induction l as [| a l IH]; simpl; [reflexivity | lra].
Qed.

(** Summing by rows or by columns gives the same total. *)
Lemma sum_R_swap {A B : Type} (t : A -> B -> R) (l : list A) (l' : list B) :
  sum_R (map (fun a => sum_R (map (fun b => t a b) l')) l) =
  sum_R (map (fun b => sum_R (map (fun a => t a b) l)) l').
Proof.
  induction l as [| a l IH]; simpl.
  - rewrite sum_R_zero. reflexivity.
  - rewrite IH. rewrite <- sum_R_plus. reflexivity.
Qed.

Lemma sum_R_ext {A : Type} (f g : A -> R) (l : list A) :
  (forall a, In a l -> f a = g a) -> sum_R (map f l) = sum_R (map g l).
Proof.
  intros Hfg. rewrite (map_ext_in f g l Hfg). reflexivity.
Qed.

Lemma sum_R_le {A : Type} (f g : A -> R) (l : list A) :
  (forall a, In a l -> f a <= g a) -> sum_R (map f l) <= sum_R (map g l).
Proof.
  induction l as [| a l IH]; intros Hfg; simpl; [lra |].
  pose proof (Hfg a (or_introl eq_refl)).
  assert (sum_R (map f l) <= sum_R (map g l))
    by (apply IH; intros b Hb; apply Hfg; right; exact Hb).
  lra.
Qed.

(** Terms that are bounded one by one and reach the bound in total reach it
    one by one. *)
Lemma sum_R_tight {A : Type} (f g : A -> R) (l : list A) :
  (forall a, In a l -> f a <= g a) ->
  sum_R (map f l) = sum_R (map g l) ->
  forall a, In a l -> f a = g a.
Proof.
  induction l as [| b l IH]; intros Hfg Hsum a Ha; [destruct Ha |].
  simpl in Hsum.
  pose proof (Hfg b (or_introl eq_refl)) as Hb.
  assert (Hl : sum_R (map f l) <= sum_R (map g l))
    by (apply sum_R_le; intros c Hc; apply Hfg; right; exact Hc).
  destruct Ha as [<- | Ha]; [lra |].
  apply IH; [intros c Hc; apply Hfg; right; exact Hc | lra | exact Ha].
Qed.

Lemma map_nth_range {A : Type} (l : list A) (d : A) :
  map (fun i => nth i l d) (range (List.length l)) = l.
Proof.
  unfold range. apply (nth_ext _ _ d d).
  - rewrite length_map, length_seq. reflexivity.
  - intros k Hk. rewrite length_map, length_seq in Hk.
    rewrite (nth_indep _ d (nth (List.length l) l d))
      by (rewrite length_map, length_seq; exact Hk).
    rewrite (map_nth (fun i => nth i l d)), seq_nth by exact Hk.
    reflexivity.
Qed.

Lemma sum_R_IZR (l : list Z) : sum_R (map IZR l) = IZR (sum l).
Proof.
  induction l as [| z l IH]; [reflexivity |].
  rewrite sum_cons, plus_IZR. simpl. rewrite IH. reflexivity.
Qed.

Lemma sum_R_nth (l : list Z) :
  sum_R (map (fun i => IZR (nth i l 0%Z)) (range (List.length l))) =
  IZR (sum l).
Proof.
  rewrite <- sum_R_IZR.
  replace (map IZR l)
    with (map IZR (map (fun i => nth i l 0%Z) (range (List.length l))))
    by (rewrite map_nth_range; reflexivity).
  rewrite map_map. reflexivity.
Qed.

(** A row with coefficient 1 on each of its variables sums them. *)
Lemma row_value_ones {A : Type} (x : string -> R) (f : A -> string)
    (l : list A) :
  row_value x (mk_SparsePair (map f l) (times 1%Z (List.length l))) =
  sum_R (map (fun a => x (f a)) l).
Proof.
  unfold row_value, times. cbn [ind val].
  induction l as [| a l IH]; [reflexivity |].
  cbn [map List.length repeat combine fold_right fst snd sum_R].
  rewrite IH. unfold sum_R. lra.
Qed.


(** What feasibility says row by row in the transportation model. *)
Lemma transport_rows_hold (supply demand costs : list Z) (x : string -> R) :
  feasible (transport_spec supply demand costs) x ->
  (forall i, (i < List.length supply)%nat ->
     sum_R (map (fun j => x (shipment i j)) (range (List.length demand)))
     <= IZR (nth i supply 0%Z)) /\
  (forall j, (j < List.length demand)%nat ->
     sum_R (map (fun i => x (shipment i j)) (range (List.length supply)))
     = IZR (nth j demand 0%Z)).
Proof.
  intros [_ Hrows]. unfold transport_spec, transport_rows in Hrows.
  cbn [linear_constraints] in Hrows.
  apply Forall_app in Hrows. destruct Hrows as [Hs Hd].
  rewrite Forall_map, Forall_forall in Hs.
  rewrite Forall_map, Forall_forall in Hd.
  split.
  - intros i Hi.
    assert (Hin : In i (range (List.length supply)))
      by (apply in_seq; lia).
    specialize (Hs i Hin). unfold row_holds, supply_row in Hs.
    cbn [senses lin_expr rhs] in Hs.
    rewrite <- (length_seq (List.length demand) 0) in Hs at 2.
    fold (range (List.length demand)) in Hs.
    rewrite row_value_ones in Hs. exact Hs.
  - intros j Hj.
    assert (Hin : In j (range (List.length demand)))
      by (apply in_seq; lia).
    specialize (Hd j Hin). unfold row_holds, demand_row in Hd.
    cbn [senses lin_expr rhs] in Hd.
    rewrite <- (length_seq (List.length supply) 0) in Hd at 2.
    fold (range (List.length supply)) in Hd.
    rewrite row_value_ones in Hd. exact Hd.
Qed.



(** X3.  When total demand equals total supply, every feasible plan of the model
    uses up every source: each supply row holds with equality. *)
Theorem transport_balanced_exhausts (supply demand costs : list Z)
    (x : string -> R) (i : nat) :
  List.length costs = (List.length supply * List.length demand)%nat ->
  sum demand = sum supply ->
  feasible
    (problem (snd (transport_model supply demand costs (fresh_world [])))) x ->
  (i < List.length supply)%nat ->
  sum_R (map (fun j => x (shipment i j)) (range (List.length demand))) =
  IZR (nth i supply 0%Z).
Proof.
  intros Hc Hbal. rewrite (transport_model_built supply demand costs [] Hc).
  cbn [snd problem]. intros Hfeas Hi.
  destruct (transport_rows_hold supply demand costs x Hfeas) as [Hs Hd].
  apply (sum_R_tight
           (fun i => sum_R (map (fun j => x (shipment i j))
                              (range (List.length demand))))
           (fun i => IZR (nth i supply 0%Z))
           (range (List.length supply))).
  - intros k Hk. apply Hs. unfold range in Hk. apply in_seq in Hk. lia.
  - rewrite sum_R_nth, <- Hbal, <- sum_R_nth.
    rewrite (sum_R_swap (fun i j => x (shipment i j))).
    apply sum_R_ext. intros j Hj.
    apply Hd. unfold range in Hj. apply in_seq in Hj. lia.
  - apply in_seq. lia.
Qed.

End Rows.

(** ** The feasible region of the assignment model *)

Section AssignRegion.
Context {TXT : Texts}.
Local Open Scope R_scope.

Lemma feasible_row (m : Cplex Z) (x : string -> R) (c : lincon Z) :
  feasible m x -> In c (linear_constraints m) -> row_holds x c.
Proof.
  intros [_ Hrows] Hin. rewrite Forall_forall in Hrows. apply Hrows, Hin.
Qed.

Lemma feasible_var (m : Cplex Z) (x : string -> R) (v : var Z) :
  feasible m x -> In v (variables m) -> in_bounds x v.
Proof.
  intros [Hvars _] Hin. rewrite Forall_forall in Hvars. apply Hvars, Hin.
Qed.

(** What the four circle rows and the bounds say of facility [i]. *)
Lemma circle_rows_hold (circles : list (circle Z)) (flows : list (list Z))
    (n : nat) (x : string -> R) (i : nat) (a b r : Z) :
  (List.length circles <= n)%nat ->
  feasible (spec_model circles flows n) x ->
  nth_error circles i = Some (a, b, r) ->
  IZR a - IZR r <= x (x_var i) + x (y_var i) <= IZR a + IZR r /\
  IZR b - IZR r <= x (x_var i) - x (y_var i) <= IZR b + IZR r /\
  0 <= x (x_var i) /\ 0 <= x (y_var i).
Proof.
  intros Hlen Hfeas Hi.
  assert (Hrows : forall c, In c (spec_circle_rows (i, (a, b, r))) ->
                            row_holds x c).
  { intros c Hc. apply (feasible_row _ x c Hfeas).
    unfold spec_model, spec_constraints. cbn [linear_constraints].
    apply in_or_app. left. apply in_flat_map.
    exists (i, (a, b, r)). split; [apply enumerate_In, Hi | exact Hc]. }
  assert (Hin : (i < n)%nat).
  { assert (i < List.length circles)%nat
      by (apply nth_error_Some; congruence). lia. }
  assert (Hvars : forall nm,
            In nm (map x_var (range n) ++ map y_var (range n)) ->
            0 <= x nm).
  { intros nm Hnm.
    assert (Hb : in_bounds x (free_var nm)).
    { apply (feasible_var _ x _ Hfeas).
      unfold spec_model, spec_variables. cbn [variables].
      apply in_or_app. left. apply in_map, Hnm. }
    apply Hb. }
  cbn [spec_circle_rows] in Hrows.
  pose proof (Hrows _ (or_introl eq_refl)) as H1.
  pose proof (Hrows _ (or_intror (or_introl eq_refl))) as H2.
  pose proof (Hrows _ (or_intror (or_intror (or_introl eq_refl)))) as H3.
  pose proof (Hrows _ (or_intror (or_intror (or_intror (or_introl eq_refl)))))
    as H4.
  unfold row_holds, row_value in H1, H2, H3, H4.
  cbn [senses lin_expr rhs ind val combine fold_right fst snd padd psub
       PyNum_Z] in H1, H2, H3, H4.
  rewrite plus_IZR in H1, H3. rewrite minus_IZR in H2, H4.
  assert (Hx : 0 <= x (x_var i)).
  { apply Hvars, in_or_app. left. apply in_map, in_seq. lia. }
  assert (Hy : 0 <= x (y_var i)).
  { apply Hvars, in_or_app. right. apply in_map, in_seq. lia. }
  repeat split; lra.
Qed.

(** What the two auxiliary rows say of the ordered pair [(i, j)]. *)
Lemma aux_rows_hold (circles : list (circle Z)) (flows : list (list Z))
    (n : nat) (x : string -> R) (i j : nat) :
  feasible (spec_model circles flows n) x ->
  (i < n)%nat -> (j < n)%nat -> i <> j ->
  Rabs (2 * (x (x_var i) - x (x_var j)) + 2 * (x (y_var i) - x (y_var j)))
  <= x (d_var (i, j)).
Proof.
  intros Hfeas Hi Hj Hij.
  assert (Hrows : forall c, In c (spec_aux_rows (i, j)) -> row_holds x c).
  { intros c Hc. apply (feasible_row _ x c Hfeas).
    unfold spec_model, spec_constraints. cbn [linear_constraints].
    apply in_or_app. right. apply in_flat_map.
    exists (i, j). split; [apply in_ordered_pairs; auto | exact Hc]. }
  cbn [spec_aux_rows] in Hrows.
  pose proof (Hrows _ (or_introl eq_refl)) as H1.
  pose proof (Hrows _ (or_intror (or_introl eq_refl))) as H2.
  unfold row_holds, row_value in H1, H2.
  cbn [senses lin_expr rhs ind val combine fold_right fst snd pint
       PyNum_Z] in H1, H2.
  apply Rabs_le. lra.
Qed.

(** X11.  Up to [n = 11], in the model the builder leaves for integer data,
    every feasible point
    keeps each facility within the four half-planes of its circle,
    [a - r <= x_i + y_i <= a + r] and [b - r <= x_i - y_i <= b + r], in the
    non-negative quadrant, and makes every [d_ij] at least
    [|2(x_i - x_j) + 2(y_i - y_j)|]. *)
Theorem assign_feasible_region (circles : list (circle Z))
    (flows : list (list Z)) (n : nat) (x : string -> R) :
  (n <= 11)%nat -> matching circles flows n ->
  feasible
    (problem (snd (assign_model circles flows n (fresh_world [])))) x ->
  (forall i a b r, nth_error circles i = Some (a, b, r) ->
     IZR a - IZR r <= x (x_var i) + x (y_var i) <= IZR a + IZR r /\
     IZR b - IZR r <= x (x_var i) - x (y_var i) <= IZR b + IZR r /\
     0 <= x (x_var i) /\ 0 <= x (y_var i)) /\
  (forall i j, (i < n)%nat -> (j < n)%nat -> i <> j ->
     Rabs (2 * (x (x_var i) - x (x_var j))
           + 2 * (x (y_var i) - x (y_var j)))
     <= x (d_var (i, j))).
Proof.
  intros Hn Hm. rewrite (assign_model_built circles flows n [] Hn Hm).
  cbn [snd problem]. intros Hfeas. split.
  - intros i a b r Hi.
    apply (circle_rows_hold circles flows n x i a b r); try assumption.
    destruct Hm as [Hlen _]. lia.
  - intros i j Hi Hj Hij. apply (aux_rows_hold circles flows n); assumption.
Qed.

(** X12.  Up to [n = 11] the builder does not reject a circle of negative
    radius, or one whose [a + r] is negative, but the model it leaves then
    has no feasible point. *)
Theorem assign_degenerate_infeasible (circles : list (circle Z))
    (flows : list (list Z)) (n : nat) (i : nat) (a b r : Z)
    (x : string -> R) :
  (n <= 11)%nat -> matching circles flows n ->
  nth_error circles i = Some (a, b, r) ->
  (r < 0 \/ a + r < 0)%Z ->
  fst (assign_model circles flows n (fresh_world [])) = Ok tt /\
  ~ feasible
      (problem (snd (assign_model circles flows n (fresh_world [])))) x.
Proof.
  intros Hn Hm Hi Hbad.
  rewrite (assign_model_built circles flows n [] Hn Hm).
  cbn [fst snd problem]. split; [reflexivity |]. intros Hfeas.
  assert (Hlen : (List.length circles <= n)%nat)
    by (destruct Hm as [Hlen _]; lia).
  destruct (circle_rows_hold circles flows n x i a b r Hlen Hfeas Hi)
    as [[Hlo Hhi] [_ [Hx Hy]]].
  destruct Hbad as [Hr | Har].
  - apply IZR_lt in Hr. lra.
  - apply IZR_lt in Har. rewrite plus_IZR in Har. lra.
Qed.

End AssignRegion.

(** ** The generated data and the round of the sweep *)

Section GeneratedData.
Context {rng : Type} {RNG : Random rng} {TXT : Texts}.
Local Open Scope Z_scope.

(** X13.  For every input, zero sources or destinations included, the generator
    raises nothing but the [ValueError] of an empty [randint] range; it never
    divides by zero.  What it returns has [num_sources] supplies, one cost
    per source and destination, and [num_destinations] demands, except that
    zero destinations still give one demand. *)
Theorem generate_data_shape (num_sources num_destinations : nat)
    (supply_range cost_range : Z * Z) (g : rng) :
  match generate_data num_sources num_destinations supply_range cost_range g
  with
  | Ok (supply, demand, costs, _) =>
      List.length supply = num_sources /\
      List.length demand = Nat.max 1 num_destinations /\
      List.length costs = (num_sources * num_destinations)%nat
  | Raise e => e = ValueError
  end.
Proof.
  unfold generate_data.
  destruct (randints num_sources _ _ g) as [[supply g1] | e] eqn:E1.
  - destruct (randints (num_destinations - 1) 1 _ g1)
      as [[demand0 g2] | e] eqn:E2.
    + destruct (randints (num_sources * num_destinations) _ _ g2)
        as [[costs g3] | e] eqn:E3.
      * apply randints_length in E1. apply randints_length in E2.
        apply randints_length in E3.
        repeat split; [exact E1 | | exact E3].
        rewrite length_app, E2. cbn [List.length]. lia.
      * apply randints_Raise in E3. apply E3.
    + unfold floordiv in E2.
      destruct (Z.eqb_spec (Z.of_nat num_destinations) 0) as [Hz | _].
      * replace (num_destinations - 1)%nat with 0%nat in E2 by lia.
        discriminate.
      * apply randints_Raise in E2. apply E2.
  - apply randints_Raise in E1. apply E1.
Qed.

(** X15.  The data generated for at least one destination is always accepted by
    the transportation builder: there is one cost per shipment variable, so
    the model of [transport_spec] is built. *)
Theorem generated_data_accepted (num_sources num_destinations : nat)
    (supply_range cost_range : Z * Z) (g : rng) (out : list string) :
  (1 <= num_destinations)%nat ->
  match generate_data num_sources num_destinations supply_range cost_range g
  with
  | Ok (supply, demand, costs, _) =>
      transport_model supply demand costs (fresh_world out) =
      (Ok tt, mk_World (transport_spec supply demand costs) out)
  | Raise _ => True
  end.
Proof.
  intros Hd. unfold generate_data.
  destruct (randints num_sources _ _ g) as [[supply g1] | e] eqn:E1;
    [| exact I].
  destruct (randints (num_destinations - 1) 1 _ g1)
    as [[demand0 g2] | e] eqn:E2; [| exact I].
  destruct (randints (num_sources * num_destinations) _ _ g2)
    as [[costs g3] | e] eqn:E3; [| exact I].
  apply randints_length in E1. apply randints_length in E2.
  apply randints_length in E3.
  apply transport_model_built.
  rewrite length_app, E1, E2, E3. simpl. f_equal. lia.
Qed.

(** What [random.randint] promises: a value within the range asked for. *)
Hypothesis randint_in_range :
  forall g a b, a <= b -> a <= fst (randint_draw g a b) <= b.

Lemma randints_range (k : nat) (a b : Z) (g g' : rng) (vs : list Z) :
  randints k a (Ok b) g = Ok (vs, g') ->
  Forall (fun v => a <= v <= b) vs /\ ((1 <= k)%nat -> a <= b).
Proof.
  revert g g' vs. induction k as [| k IH]; intros g g' vs; simpl.
  - intros [= <- _]. split; [constructor | lia].
  - unfold randint. destruct (Z.leb_spec a b) as [Hab | Hab];
      [| discriminate].
    pose proof (randint_in_range g a b Hab) as Hv.
    destruct (randint_draw g a b) as [v g1]. simpl in Hv.
    destruct (randints k a (Ok b) g1) as [[vs' g2] | e] eqn:E;
      [| discriminate].
    intros [= <- _]. destruct (IH g1 g2 vs' E) as [Hvs _].
    split; [constructor; assumption | intros _; exact Hab].
Qed.

Lemma sum_upper (b : Z) (l : list Z) :
  Forall (fun v => v <= b) l -> sum l <= b * Z.of_nat (List.length l).
Proof.
  induction 1 as [| v l Hv _ IH].
  - unfold sum. simpl. lia.
  - rewrite sum_cons. cbn [List.length]. lia.
Qed.

(** X14.  Whatever the generator returns lies within the ranges asked for, and
    with two destinations or more every demand, the last one included, is
    at least 1. *)
Theorem generate_data_ranges (num_sources num_destinations : nat)
    (supply_range cost_range : Z * Z) (g : rng) :
  match generate_data num_sources num_destinations supply_range cost_range g
  with
  | Ok (supply, demand, costs, _) =>
      Forall (fun v => fst supply_range <= v <= snd supply_range) supply /\
      Forall (fun v => fst cost_range <= v <= snd cost_range) costs /\
      ((2 <= num_destinations)%nat -> Forall (fun v => 1 <= v) demand)
  | Raise _ => True
  end.
Proof.
  unfold generate_data.
  destruct (randints num_sources _ _ g) as [[supply g1] | e] eqn:E1;
    [| exact I].
  destruct (randints (num_destinations - 1) 1 _ g1)
    as [[demand0 g2] | e] eqn:E2; [| exact I].
  destruct (randints (num_sources * num_destinations) _ _ g2)
    as [[costs g3] | e] eqn:E3; [| exact I].
  split; [apply (randints_range _ _ _ _ _ _ E1) |].
  split; [apply (randints_range _ _ _ _ _ _ E3) |].
  intros Hd. unfold floordiv in E2.
  destruct (Z.eqb_spec (Z.of_nat num_destinations) 0) as [Hz | _]; [lia |].
  pose proof (randints_length _ _ _ _ _ _ E2) as Hlen.
  destruct (randints_range _ _ _ _ _ _ E2) as [Hvs Hq].
  specialize (Hq ltac:(lia)).
  apply Forall_app. split.
  - eapply Forall_impl; [| exact Hvs]. simpl. intros v Hv. lia.
  - constructor; [| constructor].
    set (q := sum supply / Z.of_nat num_destinations) in *.
    assert (Hup : sum demand0 <= q * Z.of_nat (List.length demand0)).
    { apply sum_upper. eapply Forall_impl; [| exact Hvs].
      simpl. intros v Hv. lia. }
    rewrite Hlen in Hup.
    assert (Hmul : Z.of_nat num_destinations * q <= sum supply)
      by (apply Z.mul_div_le; lia).
    nia.
Qed.

End GeneratedData.

Section SweepRound.
Context {rng sval : Type} {RNG : Random rng} {TXT : Texts}
  {LIB : Library Z sval}.
Local Open Scope Z_scope.

Lemma transportation_problem_quiet_Ok (supply demand costs : list Z)
    (w : World Z) :
  (forall p e, solve p = Raise e -> exists msg, e = CplexError msg) ->
  fst (transportation_problem supply demand costs false w) = Ok tt.
Proof.
  intros Hsolve.
  unfold transportation_problem, try_except_CplexError, bind, cplex_Cplex.
  destruct Cplex_raises as [msg |]; [reflexivity |].
  fold (fresh_world (num := Z) (stdout w)).
  destruct (transport_model_outcome supply demand costs (stdout w))
    as [[p Ep] | [msg [p Ep]]]; rewrite Ep; [| reflexivity].
  unfold problem_solve. cbn [problem].
  destruct (solve p) as [sol | e] eqn:Es; [reflexivity |].
  destruct (Hsolve p e Es) as [msg ->]. reflexivity.
Qed.

(** X16.  A round of the timing sweep, which runs with [show=False], completes:
    when the ranges are not empty and the least possible total supply gives
    every destination a unit, [wrapper] raises nothing, whatever the random
    source draws and whether the solver answers or raises [CplexError]. *)
Theorem wrapper_completes (num_sources num_destinations : nat)
    (supply_range cost_range : Z * Z) (g : rng) (w : World Z) :
  (forall g a b, a <= b -> a <= fst (randint_draw g a b) <= b) ->
  (forall p e, solve p = Raise e -> exists msg, e = CplexError msg) ->
  (1 <= num_destinations)%nat ->
  fst supply_range <= snd supply_range ->
  fst cost_range <= snd cost_range ->
  Z.of_nat num_destinations <= fst supply_range * Z.of_nat num_sources ->
  exists g',
    fst (wrapper num_sources num_destinations supply_range cost_range
           false g w) = Ok g'.
Proof.
  intros Hlaw Hsolve Hd Hsr Hcr Htot.
  destruct (generate_data_returns Hlaw num_sources num_destinations
              supply_range cost_range g Hd Hsr Hcr Htot)
    as [supply [demand [costs [g' Eg]]]].
  exists g'. unfold wrapper. rewrite Eg.
  pose proof (transportation_problem_quiet_Ok supply demand costs w Hsolve)
    as Ht.
  destruct (transportation_problem supply demand costs false w)
    as [[u | e] w']; simpl in Ht; [reflexivity | discriminate].
Qed.

End SweepRound.

(** ** The further theorems at concrete inputs *)

(** The unlicensed solver raises nothing but [CplexError]. *)
Lemma unlicensed_only_CplexError :
  forall p e, solve (Library := unlicensed) p = Raise e ->
              exists msg, e = CplexError msg.
Proof. intros p e [= <-]. eexists. reflexivity. Qed.

(** Three costs for four shipment variables. *)
Lemma transportation_problem_bad_costs_witness :
  ([1; 2; 3]%Z <> [] /\
   List.length supply22 * List.length demand22 <> 0 /\
   List.length [1; 2; 3]%Z <> List.length supply22 * List.length demand22) /\
  transportation_problem (LIB := unlicensed) supply22 demand22 [1; 2; 3]%Z
    true (fresh_world []) =
  (Ok tt,
   mk_World empty_problem
     ([] ++ [("Exception raised: " ^^ inconsistent_arguments)%string])).
Proof.
  assert (Hne : [1; 2; 3]%Z <> []) by discriminate.
  assert (Hk : List.length supply22 * List.length demand22 <> 0)
    by (simpl; lia).
  assert (Hlen : List.length [1; 2; 3]%Z
                 <> List.length supply22 * List.length demand22)
    by (simpl; lia).
  split; [split; [exact Hne | split; [exact Hk | exact Hlen]] |].
  apply (transportation_problem_bad_costs (LIB := unlicensed) supply22
           demand22 [1; 2; 3]%Z true (fresh_world []) eq_refl Hne Hk Hlen).
Defined.

(** The scenario on the unlicensed library, without printing the solution. *)
Lemma transportation_problem_returns_witness :
  fst (transportation_problem (LIB := unlicensed) supply22 demand22 costs22
         false (fresh_world [])) = Ok tt /\
  (stdout (snd (transportation_problem (LIB := unlicensed) supply22 demand22
                  costs22 false (fresh_world []))) = [] \/
   exists msg,
     stdout (snd (transportation_problem (LIB := unlicensed) supply22
                    demand22 costs22 false (fresh_world []))) =
     [] ++ [("Exception raised: " ^^ msg)%string]).
Proof.
  apply (transportation_problem_returns (LIB := unlicensed) supply22 demand22
           costs22 (fresh_world []) unlicensed_only_CplexError).
Defined.

(** The scenario on the solver that puts every variable at zero: no
    shipment line is printed. *)
Lemma transportation_problem_report_witness :
  transportation_problem (LIB := all_zero) supply22 demand22 costs22 true
    (fresh_world []) =
  (Ok tt,
   mk_World (transport_spec supply22 demand22 costs22)
     ["Solution status: optimal"%string; "Objective value: 0"%string]).
Proof.
  apply (transportation_problem_report (LIB := all_zero) supply22 demand22
           costs22
           (mk_Solution "optimal" (Ok 0%Z)
              (Ok (map (fun _ => 0%Z)
                     (variables (transport_spec supply22 demand22 costs22))))
              (fun _ => Ok 0%Z))
           0%Z
           (map (fun _ => 0%Z)
              (variables (transport_spec supply22 demand22 costs22)))
           (fresh_world []) eq_refl eq_refl eq_refl eq_refl eq_refl).
  simpl. lia.
Defined.

(** The scenario on the solver that finds every model infeasible. *)
Lemma transportation_problem_no_solution_witness :
  transportation_problem (LIB := infeasible) supply22 demand22 costs22 true
    (fresh_world []) =
  (Ok tt,
   mk_World (transport_spec supply22 demand22 costs22)
     ["Solution status: infeasible"%string;
      "Exception raised: CPLEX Error  1217: No solution exists."%string]).
Proof.
  apply (transportation_problem_no_solution (LIB := infeasible) supply22
           demand22 costs22
           (mk_Solution "infeasible"
              (Raise (CplexError "CPLEX Error  1217: No solution exists."))
              (Raise (CplexError "CPLEX Error  1217: No solution exists."))
              (fun _ =>
                 Raise (CplexError "CPLEX Error  1217: No solution exists.")))
           "CPLEX Error  1217: No solution exists."
           (fresh_world []) eq_refl eq_refl eq_refl eq_refl).
Defined.

(** The two-facility scenario on the solver that puts every variable at
    zero. *)
Lemma assign_problem_report_witness :
  assign_problem (LIB := all_zero) circles2 flows2 2 (fresh_world []) =
  (Ok tt,
   mk_World (spec_model circles2 flows2 2)
     ["Solution status: optimal"%string; "Objective value: 0"%string;
      "(0, 0)"%string; "(0, 0)"%string]).
Proof.
  apply (assign_problem_report (LIB := all_zero) circles2 flows2 2
           (mk_Solution "optimal" (Ok 0%Z)
              (Ok (map (fun _ => 0%Z)
                     (variables (spec_model circles2 flows2 2))))
              (fun _ => Ok 0%Z))
           0%Z (fun _ => 0%Z)
           (fresh_world []) eq_refl scenario_2_small matching_scenario_2
           eq_refl eq_refl).
  intros i _. split; reflexivity.
Defined.

(** The two-facility scenario on the solver that finds every model
    infeasible: the status line, then the error. *)
Lemma assign_problem_no_solution_witness :
  assign_problem (LIB := infeasible) circles2 flows2 2 (fresh_world []) =
  (Raise (CplexError "CPLEX Error  1217: No solution exists."),
   mk_World (spec_model circles2 flows2 2)
     ["Solution status: infeasible"%string]).
Proof.
  apply (assign_problem_no_solution (LIB := infeasible) circles2 flows2 2
           (mk_Solution "infeasible"
              (Raise (CplexError "CPLEX Error  1217: No solution exists."))
              (Raise (CplexError "CPLEX Error  1217: No solution exists."))
              (fun _ =>
                 Raise (CplexError "CPLEX Error  1217: No solution exists.")))
           (CplexError "CPLEX Error  1217: No solution exists.")
           (fresh_world []) eq_refl scenario_2_small matching_scenario_2
           eq_refl eq_refl).
Defined.

Lemma twelve_le_12 : 12 <= 12.
Proof. lia. Qed.

(** Twelve facilities: the script stops before the solver and prints
    nothing. *)
Lemma assign_problem_stops_12_witness :
  (12 <= 12 /\ matching circles12 flows12 12) /\
  assign_problem (LIB := all_zero) circles12 flows12 12 (fresh_world []) =
  (Raise (CplexError duplicate_entries),
   mk_World (circle_model circles12 12) []).
Proof.
  split; [split; [exact twelve_le_12 | exact matching_12] |].
  apply (assign_problem_stops_12 (LIB := all_zero) circles12 flows12 12
           (fresh_world []) eq_refl twelve_le_12 matching_12).
Defined.

(** Three circles for [n = 2] run into the out-of-range access. *)
Lemma index_error_circles3 : index_error circles3 flows2 2.
Proof. unfold index_error. vm_compute. reflexivity. Qed.

Lemma assign_problem_index_error_witness :
  index_error circles3 flows2 2 /\
  fst (assign_problem (LIB := unlicensed) circles3 flows2 2
         (fresh_world ["before"%string])) = Raise IndexError /\
  stdout (snd (assign_problem (LIB := unlicensed) circles3 flows2 2
                 (fresh_world ["before"%string]))) = ["before"%string].
Proof.
  split; [exact index_error_circles3 |].
  apply (assign_problem_index_error (LIB := unlicensed) circles3 flows2 2
           (fresh_world ["before"%string]) eq_refl index_error_circles3).
Defined.


(** The plan uses up the first source: 10 units. *)
Lemma transport_balanced_exhausts_witness :
  sum demand22 = sum supply22 /\
  sum_R (map (fun j => plan22 (shipment 0 j)) (range (List.length demand22)))
  = IZR (nth 0 supply22 0%Z).
Proof.
  split; [reflexivity |].
  apply (transport_balanced_exhausts supply22 demand22 costs22 plan22 0
           eq_refl eq_refl plan22_feasible).
  simpl. lia.
Defined.

(** The placement [plan2] is feasible for the two-facility scenario. *)
Lemma plan2_feasible :
  feasible
    (problem (snd (assign_model circles2 flows2 2 (fresh_world [])))) plan2.
Proof.
  rewrite (assign_model_built circles2 flows2 2 [] scenario_2_small
             matching_scenario_2).
  unfold feasible, spec_model, spec_variables, spec_constraints.
  simpl. split.
  - repeat constructor; unfold in_bounds, var_name, plan2; simpl; lra.
  - repeat constructor; unfold row_holds, row_value, plan2; simpl; lra.
Qed.

Lemma assign_feasible_region_witness :
  (2 <= 11)%nat /\ matching circles2 flows2 2 /\
  feasible
    (problem (snd (assign_model circles2 flows2 2 (fresh_world [])))) plan2 /\
  (Rabs (2 * (plan2 (x_var 0%nat) - plan2 (x_var 1%nat))
         + 2 * (plan2 (y_var 0%nat) - plan2 (y_var 1%nat)))
   <= plan2 (d_var (0%nat, 1%nat)))%R.
Proof.
  split; [exact scenario_2_small |].
  split; [exact matching_scenario_2 |]. split; [exact plan2_feasible |].
  apply (proj2 (assign_feasible_region circles2 flows2 2 plan2
                  scenario_2_small matching_scenario_2 plan2_feasible)
           0 1); lia.
Defined.

Lemma matching_negative : matching circles_negative flows1 1.
Proof.
  split; [reflexivity |]. split; [reflexivity |]. repeat constructor.
Qed.

(** A radius of -1: the model is built and no placement is feasible. *)
Lemma assign_degenerate_infeasible_witness :
  1 <= 11 /\ matching circles_negative flows1 1 /\
  (-1 < 0 \/ 0 + -1 < 0)%Z /\
  fst (assign_model circles_negative flows1 1 (fresh_world [])) = Ok tt /\
  ~ feasible
      (problem (snd (assign_model circles_negative flows1 1 (fresh_world []))))
      plan2.
Proof.
  assert (Hn : 1 <= 11) by lia.
  split; [exact Hn |].
  split; [exact matching_negative |]. split; [left; lia |].
  apply (assign_degenerate_infeasible circles_negative flows1 1 0 0%Z 0%Z
           (-1)%Z plan2 Hn matching_negative eq_refl).
  left. lia.
Defined.

(** The data drawn from seed 42 for two sources and two destinations. *)
Lemma generated_data_accepted_witness :
  (1 <= 2)%nat /\
  match generate_data 2 2 (50, 100)%Z (1, 20)%Z 42%Z with
  | Ok (supply, demand, costs, _) =>
      transport_model supply demand costs (fresh_world []) =
      (Ok tt, mk_World (transport_spec supply demand costs) [])
  | Raise _ => True
  end.
Proof.
  split; [lia |].
  apply (generated_data_accepted 2 2 (50, 100)%Z (1, 20)%Z 42%Z []). lia.
Defined.

Lemma generate_data_ranges_witness :
  match generate_data 2 2 (50, 100)%Z (1, 20)%Z 42%Z with
  | Ok (supply, demand, costs, _) =>
      Forall (fun v => (50 <= v <= 100)%Z) supply /\
      Forall (fun v => (1 <= v <= 20)%Z) costs /\
      ((2 <= 2)%nat -> Forall (fun v => (1 <= v)%Z) demand)
  | Raise _ => True
  end.
Proof.
  exact (generate_data_ranges (RNG := lcg) lcg_draw_range 2 2 (50, 100)%Z
           (1, 20)%Z 42%Z).
Defined.

(** A round of the sweep at size 2 on the unlicensed library. *)
Lemma wrapper_completes_witness :
  exists g',
    fst (wrapper (RNG := lcg) (LIB := unlicensed) 2 2 (50, 100)%Z (1, 20)%Z
           false 42%Z (fresh_world [])) = Ok g'.
Proof.
  apply (wrapper_completes (RNG := lcg) (LIB := unlicensed) 2 2 (50, 100)%Z
           (1, 20)%Z 42%Z (fresh_world []) lcg_draw_range
           unlicensed_only_CplexError); simpl; lia.
Defined.

(** The objective of the two-facility scenario: [3 d01 + 3 d10]. *)
Lemma assign_objective_terms_witness :
  (2 <= 11 /\ matching circles2 flows2 2) /\
  objective_sense
    (problem (snd (assign_model circles2 flows2 2 (fresh_world [])))) =
    minimize /\
  objective_linear
    (problem (snd (assign_model circles2 flows2 2 (fresh_world [])))) =
    [("d01"%string, 3%Z); ("d10"%string, 3%Z)].
Proof.
  split; [split; [exact scenario_2_small | exact matching_scenario_2] |].
  destruct (assign_objective_terms circles2 flows2 2 scenario_2_small
              matching_scenario_2) as [Hsense [Hterms _]].
  split; [exact Hsense | rewrite Hterms; reflexivity].
Defined.

(** In the two-facility scenario [d01] gets the flow 3 and nothing else. *)
Lemma assign_objective_le_11_witness :
  2 <= 11 /\ matching circles2 flows2 2 /\ In (0, 1) (ordered_pairs 2) /\
  objective_values (d_var (0, 1))
    (problem (snd (assign_model circles2 flows2 2 (fresh_world [])))) =
  [flow_at flows2 (0, 1)].
Proof.
  assert (Hn : 2 <= 11) by lia.
  split; [exact Hn |]. split; [exact matching_scenario_2 |].
  split; [exact pair_01_ordered |].
  apply (assign_objective_le_11 circles2 flows2 2 (0, 1) Hn
           matching_scenario_2 pair_01_ordered).
Defined.

(** In the two-facility scenario [d01] occurs in the two rows of [(0, 1)]. *)
Lemma assign_aux_rows_le_11_witness :
  2 <= 11 /\ matching circles2 flows2 2 /\ In (0, 1) (ordered_pairs 2) /\
  rows_with (d_var (0, 1))
    (problem (snd (assign_model circles2 flows2 2 (fresh_world [])))) =
  spec_aux_rows (0, 1).
Proof.
  assert (Hn : 2 <= 11) by lia.
  split; [exact Hn |]. split; [exact matching_scenario_2 |].
  split; [exact pair_01_ordered |].
  apply (assign_aux_rows_le_11 circles2 flows2 2 (0, 1) Hn
           matching_scenario_2 pair_01_ordered).
Defined.
